(** * Minecraft server-list-ping worker: wire protocol and SRV selection

    A shallow embedding of [src/minecraft.ts], [src/srv.ts] and the worker
    entry point, with the properties of the specification stated and
    proved (or refuted) over it.

    Conventions of the embedding:
    - a [Buffer] is a list of bytes, each byte a [Z] in [0, 255];
    - a JavaScript string is the list of its UTF-16 code units;
    - JavaScript numbers that the program keeps integral are [Z]; the
      random draw of the SRV selection is a rational [Q] in module [srv],
      used for the properties that do not depend on rounding, and a
      binary64 number in module [srv64], which computes the selection with
      the arithmetic of the source;
    - a function that can throw returns a [Result]; [undefined]/[null]
      results are [option]. *)

From Stdlib Require Import ZArith List Bool String Ascii QArith Lia Lqa.
From Stdlib Require SpecFloat.
Import ListNotations.
Local Open Scope Z_scope.
#[local] Set Warnings "-register-all".

(** ** Preliminaries: buffers, strings, exceptions *)

Definition Buffer := list Z.
Definition JsString := list Z.

Definition blen (b : Buffer) : Z := Z.of_nat (List.length b).

(** A string literal of the source, as code units (ASCII literals only). *)
Definition lit (s : string) : JsString :=
  map (fun a => Z.of_N (N_of_ascii a)) (list_ascii_of_string s).

Inductive Result (E A : Type) : Type :=
| Ok (a : A)
| Err (e : E).
Arguments Ok {E A} a.
Arguments Err {E A} e.

Definition bind {E A B} (r : Result E A) (k : A -> Result E B) : Result E B :=
  match r with
  | Ok a => k a
  | Err e => Err e
  end.

Notation "x <- r ;; k" := (bind r (fun x => k))
  (at level 61, r at next level, right associativity).

(** [try { body } catch { handler }] *)
Definition try_catch {E A} (body : Result E A) (handler : A) : A :=
  match body with
  | Ok a => a
  | Err _ => handler
  end.

(** ** The [leb] package: VarInt codec *)

Module leb.

Inductive DecodeError : Type :=
| NeedMoreData   (* the buffer ran out before a terminating byte *)
| Overlong.      (* more than five bytes would be consumed *)

Record Decoded : Type := mkDecoded { value : Z; nextIndex : Z }.

Definition toUint32 (v : Z) : Z := v mod 2 ^ 32.
Definition toInt32 (u : Z) : Z := (u + 2 ^ 31) mod 2 ^ 32 - 2 ^ 31.

Fixpoint encodeLoop (fuel : nat) (u : Z) : Buffer :=
  match fuel with
  | O => []
  | S fuel' =>
      let low := Z.land u 127 in
      let rest := Z.shiftr u 7 in
      if rest =? 0 then [low] else Z.lor low 128 :: encodeLoop fuel' rest
  end.

(** Modelled from the spec: [leb.encodeInt32] is the npm package [leb],
    which is not part of the sources. Section 3 and 4.1 of the
    specification describe it: a 32-bit value is written 7 payload bits
    per byte, least significant group first, the high bit of a byte saying
    that another byte follows, in 1 to 5 bytes and with no padding. The
    specification says nothing of a value that does not fit 32 bits; the
    bytes this definition gives there (those of the value modulo 2^32)
    stand for no behaviour of the package, and the properties of the
    program below bound the values they encode. *)
Definition encodeInt32 (v : Z) : Buffer := encodeLoop 5 (toUint32 v).

Fixpoint decodeLoop (fuel : nat) (bytes : Buffer) (shift acc index : Z)
  : Result DecodeError Decoded :=
  match fuel with
  | O => Err Overlong
  | S fuel' =>
      match bytes with
      | [] => Err NeedMoreData
      | b :: bytes' =>
          let acc' := Z.lor acc (Z.shiftl (Z.land b 127) shift) in
          if Z.land b 128 =? 0
          then Ok (mkDecoded (toInt32 acc') (index + 1))
          else decodeLoop fuel' bytes' (shift + 7) acc' (index + 1)
      end
  end.

(** Modelled from the spec: [leb.decodeInt32(buffer, index)] of the npm
    package [leb], which is not part of the sources. Section 4.1: it
    yields the value and the index after the last byte consumed; it fails
    when the buffer runs out before a terminating byte, and it fails,
    differently, when a sixth byte would be needed. *)
Definition decodeInt32 (buffer : Buffer) (index : Z)
  : Result DecodeError Decoded :=
  decodeLoop 5 (skipn (Z.to_nat index) buffer) 0 0 index.

End leb.

(** ** [src/minecraft.ts] *)

Inductive JsError : Type :=
| Error (message : string)
| DecodeFailure (e : leb.DecodeError)
| RangeError
| TypeError
| SyntaxError
| AbortError.

(** [Buffer.from(value, 'utf8')]: UTF-8 of a sequence of UTF-16 code units;
    an unpaired surrogate becomes U+FFFD. *)
Definition isHighSurrogate (c : Z) : bool := (0xD800 <=? c) && (c <=? 0xDBFF).
Definition isLowSurrogate (c : Z) : bool := (0xDC00 <=? c) && (c <=? 0xDFFF).

Definition utf8CodePoint (c : Z) : Buffer :=
  if c <? 0x80 then [c]
  else if c <? 0x800 then
    [Z.lor 0xC0 (Z.shiftr c 6); Z.lor 0x80 (Z.land c 0x3F)]
  else if c <? 0x10000 then
    [Z.lor 0xE0 (Z.shiftr c 12);
     Z.lor 0x80 (Z.land (Z.shiftr c 6) 0x3F);
     Z.lor 0x80 (Z.land c 0x3F)]
  else
    [Z.lor 0xF0 (Z.shiftr c 18);
     Z.lor 0x80 (Z.land (Z.shiftr c 12) 0x3F);
     Z.lor 0x80 (Z.land (Z.shiftr c 6) 0x3F);
     Z.lor 0x80 (Z.land c 0x3F)].

Fixpoint utf8 (s : JsString) : Buffer :=
  match s with
  | [] => []
  | c :: rest =>
      if isHighSurrogate c then
        match rest with
        | d :: rest' =>
            if isLowSurrogate d
            then utf8CodePoint (0x10000 + (c - 0xD800) * 0x400 + (d - 0xDC00))
                   ++ utf8 rest'
            else utf8CodePoint 0xFFFD ++ utf8 rest
        | [] => utf8CodePoint 0xFFFD
        end
      else if isLowSurrogate c then utf8CodePoint 0xFFFD ++ utf8 rest
      else utf8CodePoint c ++ utf8 rest
  end.

Module minecraft.

Definition DEFAULT_PROTOCOL_VERSION : Z := 765.
Definition NEXT_STATE_STATUS : Z := 1.
Definition PACKET_HANDSHAKE : Z := 0.
Definition PACKET_STATUS_REQUEST : Z := 0.
Definition PACKET_STATUS_RESPONSE : Z := 0.
Definition PING_TIMEOUT_MS : Z := 4500.

Record PingOptions : Type := mkPingOptions {
  hostname : JsString;
  port : Z;
  serverAddress : JsString;
  protocolVersion : option Z;
  timeoutMs : option Z
}.

Definition encodeVarInt (value : Z) : Buffer := leb.encodeInt32 value.

Definition encodeString (value : JsString) : Buffer :=
  let encoded := utf8 value in
  encodeVarInt (blen encoded) ++ encoded.

Definition buildPacket (packetId : Z) (payload : option Buffer) : Buffer :=
  let packetIdBytes := encodeVarInt packetId in
  let body :=
    match payload with
    | Some p => packetIdBytes ++ p
    | None => packetIdBytes
    end in
  encodeVarInt (blen body) ++ body.

(** [buf.writeUInt16BE(value, 0)] on a fresh two-byte buffer; a value
    outside [0, 65535] is a range error. *)
Definition writeUInt16BE (value : Z) : Result JsError Buffer :=
  if (0 <=? value) && (value <=? 65535)
  then Ok [Z.shiftr value 8; Z.land value 255]
  else Err RangeError.

Definition buildHandshakePacket
  (serverAddress : JsString) (port protocolVersion : Z)
  : Result JsError Buffer :=
  portBuffer <- writeUInt16BE port;;
  let payload :=
    encodeVarInt protocolVersion
      ++ encodeString serverAddress
      ++ portBuffer
      ++ encodeVarInt NEXT_STATE_STATUS in
  Ok (buildPacket PACKET_HANDSHAKE (Some payload)).

Definition buildStatusRequestPacket : Buffer :=
  buildPacket PACKET_STATUS_REQUEST None.

(** [buf.subarray(start, end)]: a negative index counts from the end,
    and both indices are clamped to the buffer. *)
Definition clampIndex (len i : Z) : Z :=
  if i <? 0 then Z.max (len + i) 0 else Z.min i len.

Definition subarray (b : Buffer) (start end_ : Z) : Buffer :=
  let len := blen b in
  let beginIndex := clampIndex len start in
  let endIndex := clampIndex len end_ in
  firstn (Z.to_nat (Z.max (endIndex - beginIndex) 0))
         (skipn (Z.to_nat beginIndex) b).

(** One pass through the body of the [while (true)] loop of [readPacket],
    after [reader.read()] has delivered [value] with [done] false: the
    pass ends in [continue] with the new buffer, or in [return]. *)
Inductive Iteration : Type :=
| Continue (buffer : Buffer)
| Return (packet : Buffer).

Definition readPacketStep (buffer : Buffer) (value : option Buffer)
  : Iteration :=
  match value with
  | None => Continue buffer
  | Some chunk =>
      let buffer := if blen buffer =? 0 then chunk else buffer ++ chunk in
      let decoded :=
        try_catch
          (d <- leb.decodeInt32 buffer 0;;
           Ok (E := leb.DecodeError)
              (Some (leb.value d), Some (leb.nextIndex d)))
          (None, None) in
      match decoded with
      | (Some packetLength, Some headerSize) =>
          let total := headerSize + packetLength in
          if blen buffer >=? total
          then Return (subarray buffer 0 total)
          else Continue buffer
      | _ => Continue buffer
      end
  end.

Definition CONNECTION_CLOSED : string :=
  "connection closed before packet could be read".

(** [reads] are the values that successive [reader.read()] calls deliver
    before the stream reports [done]. *)
Fixpoint readPacketLoop (buffer : Buffer) (reads : list (option Buffer))
  : Result JsError Buffer :=
  match reads with
  | [] => Err (Error CONNECTION_CLOSED)
  | value :: reads' =>
      match readPacketStep buffer value with
      | Continue buffer' => readPacketLoop buffer' reads'
      | Return packet => Ok packet
      end
  end.

Definition readPacket (reads : list (option Buffer))
  : Result JsError Buffer :=
  readPacketLoop [] reads.

Definition liftDecode {A} (r : Result leb.DecodeError A) : Result JsError A :=
  match r with
  | Ok a => Ok a
  | Err e => Err (DecodeFailure e)
  end.

(** [parseStatusPacket] up to the call of [JSON.parse]: the result is the
    UTF-8 payload handed to the JSON parser. The message of the first error
    is kept without the packet id that the source appends to it. *)
Definition parseStatusPacket (packet : Buffer) : Result JsError Buffer :=
  packetLength <- liftDecode (leb.decodeInt32 packet 0);;
  packetType <- liftDecode (leb.decodeInt32 packet (leb.nextIndex packetLength));;
  if negb (leb.value packetType =? PACKET_STATUS_RESPONSE)
  then Err (Error "unexpected packet id")
  else
    jsonLength <- liftDecode (leb.decodeInt32 packet (leb.nextIndex packetType));;
    let start := leb.nextIndex jsonLength in
    let end_ := start + leb.value jsonLength in
    if end_ >? blen packet
    then Err (Error "status payload truncated")
    else Ok (subarray packet start end_).

(** What [getServerStatus] does to the socket, in order. The function
    below is the run in which the writes succeed and the reads end before
    the timer of [withTimeout] fires; module [race] further down has the
    writes that fail or hang, the reads that fail or hang, and the timer. *)
Inductive SocketAction : Type :=
| Connect (hostname : JsString) (port : Z)
| Write (bytes : Buffer)
| ReleaseWriter
| ReleaseReader
| Close.

Definition orDefault (o : option Z) (d : Z) : Z :=
  match o with
  | Some v => v
  | None => d
  end.

Definition getServerStatus (opts : PingOptions)
  (reads : list (option Buffer))
  : list SocketAction * Result JsError Buffer :=
  let protocolVersion :=
    orDefault (protocolVersion opts) DEFAULT_PROTOCOL_VERSION in
  let finally := [ReleaseWriter; ReleaseReader; Close] in
  let opened := [Connect (hostname opts) (port opts)] in
  match buildHandshakePacket (serverAddress opts) (port opts)
          protocolVersion with
  | Err e => (opened ++ finally, Err e)
  | Ok handshake =>
      (opened ++ [Write handshake; Write buildStatusRequestPacket]
         ++ finally,
       packet <- readPacket reads;; parseStatusPacket packet)
  end.

End minecraft.

(** ** JavaScript strings and [Number.parseInt] *)

(** White space and line terminators of ECMAScript: what [trim] removes and
    what [\s] matches. *)
Definition isWhiteSpace (c : Z) : bool :=
  ((9 <=? c) && (c <=? 13)) || (c =? 32) || (c =? 0xA0) || (c =? 0x1680)
  || ((0x2000 <=? c) && (c <=? 0x200A)) || (c =? 0x2028) || (c =? 0x2029)
  || (c =? 0x202F) || (c =? 0x205F) || (c =? 0x3000) || (c =? 0xFEFF).

Fixpoint trimStart (s : JsString) : JsString :=
  match s with
  | [] => []
  | c :: rest => if isWhiteSpace c then trimStart rest else s
  end.

Definition trimEnd (s : JsString) : JsString := rev (trimStart (rev s)).
Definition trim (s : JsString) : JsString := trimEnd (trimStart s).

(** [s.split(/\s+/)] *)
Fixpoint splitWhiteSpace (s cur : JsString) (inRun : bool) : list JsString :=
  match s with
  | [] => [rev cur]
  | c :: rest =>
      if isWhiteSpace c then
        if inRun then splitWhiteSpace rest cur true
        else rev cur :: splitWhiteSpace rest [] true
      else splitWhiteSpace rest (c :: cur) false
  end.

Definition isDigit (c : Z) : bool := (48 <=? c) && (c <=? 57).

Fixpoint leadingDigits (s : JsString) : list Z :=
  match s with
  | [] => []
  | c :: rest => if isDigit c then (c - 48) :: leadingDigits rest else []
  end.

(** [Number.parseInt(s, 10)]; [None] is [NaN]. The value is the exact
    integer: the rounding of integers beyond 2^53 to doubles is left out. *)
Definition parseInt10 (s : JsString) : option Z :=
  let s := trimStart s in
  let (sign, s) :=
    match s with
    | 45 :: rest => (-1, rest)
    | 43 :: rest => (1, rest)
    | _ => (1, s)
    end in
  match leadingDigits s with
  | [] => None
  | ds => Some (sign * fold_left (fun acc d => 10 * acc + d) ds 0)
  end.

(** ** [src/srv.ts] *)

(** A value produced by [JSON.parse]. *)
Inductive Json : Type :=
| JNull
| JBool (b : bool)
| JNumber (n : Q)
| JString (s : JsString)
| JArray (items : list Json)
| JObject (fields : list (JsString * Json)).

Definition eqJsString (a b : JsString) : bool :=
  if list_eq_dec Z.eq_dec a b then true else false.

(** The own property [key] of a parsed object; of two equal keys the one
    written last wins. *)
Fixpoint lookupField (fields : list (JsString * Json)) (key : JsString)
  : option Json :=
  match fields with
  | [] => None
  | (k, v) :: rest =>
      match lookupField rest key with
      | Some later => Some later
      | None => if eqJsString k key then Some v else None
      end
  end.

(** [v.key] for one of the keys the program reads ([Answer], [type],
    [data]), none of which is a property of a prototype: reading a property
    of [null] throws, and a value that is not an object has no such
    property. *)
Definition getProp (v : Json) (key : string) : Result JsError (option Json) :=
  match v with
  | JNull => Err TypeError
  | JObject fields => Ok (lookupField fields (lit key))
  | _ => Ok None
  end.

(** The ways the DNS-over-HTTPS exchange of [fetchWithTimeout] and
    [response.json()] can end. *)
Inductive FetchFailure : Type :=
| NetworkError
| Aborted.        (* the 2000 ms timer called [controller.abort()] *)

Inductive HttpExchange : Type :=
| FetchRejected (why : FetchFailure)
| Responded (ok : bool) (json : Result JsError Json).

Module srv.

Definition DNS_ENDPOINT : string := "https://cloudflare-dns.com/dns-query".
Definition SRV_PREFIX : string := "_minecraft._tcp.".
Definition SRV_RECORD_TYPE : Z := 33.
Definition SRV_LOOKUP_TIMEOUT_MS : Z := 2000.

Record ParsedSrvRecord : Type := mkRecord {
  priority : Z;
  weight : Z;
  port : Z;
  target : JsString
}.

(** [targetRaw?.replace(/\.$/, '')] *)
Definition stripTrailingDot (s : JsString) : JsString :=
  match rev s with
  | 46 :: rest => rev rest
  | _ => s
  end.

Definition parseIntOpt (s : option JsString) : option Z :=
  match s with
  | Some s => parseInt10 s
  | None => None     (* parseInt(undefined, 10) is NaN *)
  end.

Definition parseSrvRecord (answer : Json)
  : Result JsError (option ParsedSrvRecord) :=
  type <- getProp answer "type";;
  match type with
  | Some (JNumber n) =>
      if negb (Qeq_bool n (inject_Z SRV_RECORD_TYPE)) then Ok None
      else
        data <- getProp answer "data";;
        match data with
        | Some (JString data) =>
            let fields := splitWhiteSpace (trim data) [] false in
            let targetRaw := nth_error fields 3 in
            let target := option_map stripTrailingDot targetRaw in
            match parseIntOpt (nth_error fields 0),
                  parseIntOpt (nth_error fields 1),
                  parseIntOpt (nth_error fields 2),
                  target with
            | Some priority, Some weight, Some port, Some (c :: target') =>
                if (port <? 1) || (port >? 65535) then Ok None
                else Ok (Some (mkRecord priority (Z.max 0 weight) port
                                        (c :: target')))
            | _, _, _, _ => Ok None
            end
        | _ => Err TypeError    (* [answer.data.trim] is not a function *)
        end
  | _ => Ok None
  end.

Definition minPriorityOf (first : ParsedSrvRecord)
  (others : list ParsedSrvRecord) : Z :=
  fold_left Z.min (map priority others) (priority first).

Definition totalWeightOf (candidates : list ParsedSrvRecord) : Z :=
  fold_left (fun sum record => sum + weight record) candidates 0.

(** The [for ... of] loop of [pickSrvRecord]; [None] when the loop ends
    without returning. *)
Fixpoint weightedWalk (roll : Q) (candidates : list ParsedSrvRecord)
  : option ParsedSrvRecord :=
  match candidates with
  | [] => None
  | record :: rest =>
      let roll := (roll - inject_Z (weight record))%Q in
      if Qle_bool roll 0 then Some record else weightedWalk roll rest
  end.

Definition candidatesOf (records : list ParsedSrvRecord)
  : list ParsedSrvRecord :=
  match records with
  | [] => []
  | first :: others =>
      let minPriority := minPriorityOf first others in
      filter (fun record => priority record =? minPriority) records
  end.

(** [random] is the value returned by [Math.random()], in [0, 1). *)
Definition pickSrvRecord (records : list ParsedSrvRecord) (random : Q)
  : option ParsedSrvRecord :=
  match records with
  | [] => None
  | _ :: _ =>
      let candidates := candidatesOf records in
      let totalWeight := totalWeightOf candidates in
      if totalWeight <=? 0 then nth_error candidates 0
      else
        let roll := (random * inject_Z totalWeight)%Q in
        match weightedWalk roll candidates with
        | Some record => Some record
        | None => nth_error candidates (List.length candidates - 1)
        end
  end.

Record SrvQuery : Type := mkQuery {
  endpoint : string;
  name : JsString;
  type : JsString;
  accept : string
}.

Definition endsWithDot (s : JsString) : bool :=
  match rev s with
  | 46 :: _ => true
  | _ => false
  end.

Definition buildSrvQueryUrl (hostname : JsString) : SrvQuery :=
  let normalized :=
    if endsWithDot hostname then removelast hostname else hostname in
  mkQuery DNS_ENDPOINT (lit SRV_PREFIX ++ normalized) (lit "SRV")
          "application/dns-json".

Record ResolvedSrvTarget : Type := mkTarget {
  hostname : JsString;
  targetPort : Z
}.

Fixpoint mapResult {A B} (f : A -> Result JsError B) (l : list A)
  : Result JsError (list B) :=
  match l with
  | [] => Ok []
  | a :: rest =>
      b <- f a;;
      bs <- mapResult f rest;;
      Ok (b :: bs)
  end.

Fixpoint nonNull {A} (l : list (option A)) : list A :=
  match l with
  | [] => []
  | Some a :: rest => a :: nonNull rest
  | None :: rest => nonNull rest
  end.

(** [answers.map(parseSrvRecord).filter(record => record !== null)] for
    the parsed body [result]. *)
Definition parsedRecords (result : Json)
  : Result JsError (list ParsedSrvRecord) :=
  answer <- getProp result "Answer";;
  let answers :=
    match answer with
    | None | Some JNull => JArray []
    | Some answers => answers
    end in
  match answers with
  | JArray items =>
      parsed <- mapResult parseSrvRecord items;;
      Ok (nonNull parsed)
  | _ => Err TypeError     (* [answers.map] is not a function *)
  end.

(** The body of the [try] block of [resolveMinecraftSrv]. *)
Definition resolveBody (hostname : JsString)
  (doh : SrvQuery -> HttpExchange) (random : Q)
  : Result JsError (option ResolvedSrvTarget) :=
  let url := buildSrvQueryUrl hostname in
  match doh url with
  | FetchRejected NetworkError => Err TypeError
  | FetchRejected Aborted => Err AbortError
  | Responded ok json =>
      if negb ok then Ok None
      else
        result <- json;;
        parsed <- parsedRecords result;;
        match pickSrvRecord parsed random with
        | None => Ok None
        | Some selection =>
            Ok (Some (mkTarget (target selection) (port selection)))
        end
  end.

Definition resolveMinecraftSrv (hostname : JsString)
  (doh : SrvQuery -> HttpExchange) (random : Q)
  : option ResolvedSrvTarget :=
  try_catch (resolveBody hostname doh random) None.

End srv.

(** ** The weighted selection in binary64 *)

(** [pickSrvRecord] with the arithmetic of the source: the priorities are
    compared, the weights are added, the draw is multiplied by the total
    and the weights are subtracted from the roll as IEEE 754 binary64
    numbers, rounded to nearest, ties to even. The number of a record is
    the binary64 number nearest to the integer the record holds. *)
Module srv64.

Definition double : Type := SpecFloat.spec_float.

Definition zero : double := SpecFloat.S754_zero false.

Definition ofInt (z : Z) : double :=
  SpecFloat.binary_normalize 53 1024 z 0 false.

Definition add (x y : double) : double := SpecFloat.SFadd 53 1024 x y.
Definition sub (x y : double) : double := SpecFloat.SFsub 53 1024 x y.
Definition mul (x y : double) : double := SpecFloat.SFmul 53 1024 x y.
Definition leb (x y : double) : bool := SpecFloat.SFleb x y.
Definition ltb (x y : double) : bool := SpecFloat.SFltb x y.
Definition eqb (x y : double) : bool := SpecFloat.SFeqb x y.

(** [Math.min] of the priorities. *)
Definition minPriorityOf (first : srv.ParsedSrvRecord)
  (others : list srv.ParsedSrvRecord) : double :=
  fold_left (fun least record =>
               if ltb (ofInt (srv.priority record)) least
               then ofInt (srv.priority record)
               else least)
            others (ofInt (srv.priority first)).

Definition candidatesOf (records : list srv.ParsedSrvRecord)
  : list srv.ParsedSrvRecord :=
  match records with
  | [] => []
  | first :: others =>
      let minPriority := minPriorityOf first others in
      filter (fun record => eqb (ofInt (srv.priority record)) minPriority)
             records
  end.

Definition totalWeightOf (candidates : list srv.ParsedSrvRecord) : double :=
  fold_left (fun sum record => add sum (ofInt (srv.weight record)))
            candidates zero.

Fixpoint weightedWalk (roll : double) (candidates : list srv.ParsedSrvRecord)
  : option srv.ParsedSrvRecord :=
  match candidates with
  | [] => None
  | record :: rest =>
      let roll := sub roll (ofInt (srv.weight record)) in
      if leb roll zero then Some record else weightedWalk roll rest
  end.

(** [random] is the value returned by [Math.random()]. *)
Definition pickSrvRecord (records : list srv.ParsedSrvRecord) (random : double)
  : option srv.ParsedSrvRecord :=
  match records with
  | [] => None
  | _ :: _ =>
      let candidates := candidatesOf records in
      let totalWeight := totalWeightOf candidates in
      if leb totalWeight zero then nth_error candidates 0
      else
        let roll := mul random totalWeight in
        match weightedWalk roll candidates with
        | Some record => Some record
        | None => nth_error candidates (List.length candidates - 1)
        end
  end.

End srv64.

(** ** The ping against its timer *)

(** [getServerStatus] with everything the socket and the clock can do to
    it. The transport says how each awaited operation ends: the two writes,
    the reads and what follows the last of them, and whether releasing a
    lock throws. Time is counted in awaited operations: [timer] is the
    number of them that settle before the callback of [setTimeout] runs,
    if the ping has not settled by then. *)
Module race.

Inductive Settle : Type :=
| Resolves
| Rejects (e : JsError)
| Never.

Inductive ReadEnd : Type :=
| Done
| ReadRejects (e : JsError)
| ReadNever.

Record Transport : Type := mkTransport {
  write1 : Settle;
  write2 : Settle;
  reads : list (option Buffer);
  readsEnd : ReadEnd;
  releaseWriterThrows : option JsError;
  releaseReaderThrows : option JsError
}.

(** [releaseLock(lock)]: the call is made, and what it throws is caught. *)
Definition releaseLock (call : minecraft.SocketAction)
  (throws : option JsError)
  : list minecraft.SocketAction * Result JsError unit :=
  ([call],
   Ok (try_catch
         match throws with
         | Some e => Err e
         | None => Ok tt
         end
         tt)).

(** The [finally] block; a statement that threw would end it there. *)
Definition finallyBlock (t : Transport) : list minecraft.SocketAction :=
  let (released1, r1) :=
    releaseLock minecraft.ReleaseWriter (releaseWriterThrows t) in
  match r1 with
  | Err _ => released1
  | Ok _ =>
      let (released2, r2) :=
        releaseLock minecraft.ReleaseReader (releaseReaderThrows t) in
      match r2 with
      | Err _ => released1 ++ released2
      | Ok _ => released1 ++ released2 ++ [minecraft.Close]
      end
  end.

Inductive BodyEnd : Type :=
| Finished (result : Result JsError Buffer)
| Hangs.

(** The run of the async function behind [pingPromise]: what it does to
    the socket before its first [await], what it does after each awaited
    operation that settles (the first write, the second write, then each
    [reader.read()]), and how it ends. *)
Record Body : Type := mkBody {
  before : list minecraft.SocketAction;
  after : list (list minecraft.SocketAction);
  ending : BodyEnd
}.

Definition TIMED_OUT : string := "ping timed out".

(** The loop of [readPacket], one awaited [reader.read()] at a time,
    followed by [parseStatusPacket] and the [finally] block. *)
Fixpoint readGroups (t : Transport) (buffer : Buffer)
  (reads : list (option Buffer))
  : list (list minecraft.SocketAction) * BodyEnd :=
  match reads with
  | [] =>
      match readsEnd t with
      | Done =>
          ([finallyBlock t], Finished (Err (Error minecraft.CONNECTION_CLOSED)))
      | ReadRejects e => ([finallyBlock t], Finished (Err e))
      | ReadNever => ([], Hangs)
      end
  | value :: reads' =>
      match minecraft.readPacketStep buffer value with
      | minecraft.Continue buffer' =>
          let (groups, ending) := readGroups t buffer' reads' in
          ([] :: groups, ending)
      | minecraft.Return packet =>
          ([finallyBlock t], Finished (minecraft.parseStatusPacket packet))
      end
  end.

Definition pingPromise (opts : minecraft.PingOptions) (t : Transport) : Body :=
  let protocolVersion :=
    minecraft.orDefault (minecraft.protocolVersion opts)
                        minecraft.DEFAULT_PROTOCOL_VERSION in
  match minecraft.buildHandshakePacket (minecraft.serverAddress opts)
          (minecraft.port opts) protocolVersion with
  | Err e => mkBody (finallyBlock t) [] (Finished (Err e))
  | Ok handshake =>
      let first := [minecraft.Write handshake] in
      match write1 t with
      | Never => mkBody first [] Hangs
      | Rejects e => mkBody first [finallyBlock t] (Finished (Err e))
      | Resolves =>
          let second := [minecraft.Write minecraft.buildStatusRequestPacket] in
          match write2 t with
          | Never => mkBody first [second] Hangs
          | Rejects e =>
              mkBody first [second; finallyBlock t] (Finished (Err e))
          | Resolves =>
              let (groups, ending) := readGroups t [] (reads t) in
              mkBody first (second :: [] :: groups) ending
          end
      end
  end.

(** Whether the timer fires: the promise has not settled after [timer]
    awaited operations. *)
Definition timedOut (body : Body) (timer : nat) : bool :=
  match ending body with
  | Finished _ => (timer <? List.length (after body))%nat
  | Hangs => true
  end.

(** [withTimeout(promise, timeoutMs, onTimeout)]: when the promise settles
    first the timer is cleared and its result is passed on; when the timer
    fires first [onTimeout] runs and the result is the timeout error,
    which a later settling of the promise does not change, though what the
    abandoned function does then is still done. *)
Definition withTimeout (promise : Body) (timer : nat)
  (onTimeout : list minecraft.SocketAction)
  : list minecraft.SocketAction * Result JsError Buffer :=
  if timedOut promise timer then
    (before promise
       ++ List.concat (firstn timer (after promise))
       ++ onTimeout
       ++ List.concat (skipn timer (after promise)),
     Err (Error TIMED_OUT))
  else
    (before promise ++ List.concat (after promise),
     match ending promise with
     | Finished result => result
     | Hangs => Err (Error TIMED_OUT)
     end).

Definition getServerStatus (opts : minecraft.PingOptions) (t : Transport)
  (timer : nat) : list minecraft.SocketAction * Result JsError Buffer :=
  let (actions, result) :=
    withTimeout (pingPromise opts t) timer [minecraft.Close] in
  (minecraft.Connect (minecraft.hostname opts) (minecraft.port opts)
     :: actions,
   result).

End race.

(** ** The worker entry point *)

Module worker.

Inductive Parsed (A : Type) : Type :=
| Valid (value : A)
| Invalid (message : string).
Arguments Valid {A} value.
Arguments Invalid {A} message.

Definition parsePort (value : option JsString) : Parsed Z :=
  match value with
  | None | Some [] => Valid 25565
  | Some value =>
      match parseInt10 value with
      | None => Invalid "'port' must be an integer between 1 and 65535"
      | Some parsed =>
          if (parsed <? 1) || (parsed >? 65535)
          then Invalid "'port' must be an integer between 1 and 65535"
          else Valid parsed
      end
  end.

Definition parseProtocol (value : option JsString) : Parsed (option Z) :=
  match value with
  | None | Some [] => Valid None
  | Some value =>
      match parseInt10 value with
      | None => Invalid "'protocolVersion' must be a positive integer"
      | Some parsed =>
          if parsed <=? 0
          then Invalid "'protocolVersion' must be a positive integer"
          else Valid (Some parsed)
      end
  end.

Definition isBlank (value : option JsString) : bool :=
  match value with
  | None => true
  | Some value => blen (trim value) =? 0
  end.

Record Target : Type := mkTarget {
  hostname : JsString;
  port : Z;
  viaSrv : bool;
  serverAddress : JsString
}.

(** The query parameters of the request, as [searchParams.get] returns
    them. *)
Record Request : Type := mkRequest {
  q_hostname : option JsString;
  q_port : option JsString;
  q_protocolVersion : option JsString
}.

(** The outcome of [fetch] before it is rendered as an HTTP response:
    a rejected request, or the ping that was run, with the target
    descriptor, the options given to [getServerStatus], what was done to
    the socket and the result of the ping. *)
Inductive Outcome : Type :=
| BadRequest (message : string)
| Pinged (target : Target) (opts : minecraft.PingOptions)
         (trace : list minecraft.SocketAction)
         (status : Result JsError Buffer).

(** [doh] and [random] are what the DNS-over-HTTPS endpoint and
    [Math.random()] give to [resolveMinecraftSrv]; [reads] is what the
    socket delivers to [getServerStatus]. *)
Definition fetch (request : Request)
  (doh : srv.SrvQuery -> HttpExchange) (random : Q)
  (reads : list (option Buffer)) : Outcome :=
  match q_hostname request with
  | None | Some [] => BadRequest "'hostname' query param is required"
  | Some hostname =>
      let requestedPort := q_port request in
      match parsePort requestedPort with
      | Invalid message => BadRequest message
      | Valid parsedPort =>
          match parseProtocol (q_protocolVersion request) with
          | Invalid message => BadRequest message
          | Valid parsedProtocol =>
              let shouldResolveSrv := isBlank requestedPort in
              let srvTarget :=
                if shouldResolveSrv
                then srv.resolveMinecraftSrv hostname doh random
                else None in
              let targetHostname :=
                match srvTarget with
                | Some t => srv.hostname t
                | None => hostname
                end in
              let targetPort :=
                match srvTarget with
                | Some t => srv.targetPort t
                | None => parsedPort
                end in
              let target :=
                mkTarget targetHostname targetPort
                         (match srvTarget with
                          | Some _ => true
                          | None => false
                          end) hostname in
              let opts :=
                minecraft.mkPingOptions targetHostname targetPort hostname
                                        parsedProtocol None in
              let (trace, status) := minecraft.getServerStatus opts reads in
              Pinged target opts trace status
          end
      end
  end.

End worker.

(** ** Vocabulary of the properties *)

(** The number of bytes of the minimal encoding of an unsigned 32-bit
    value. *)
Definition sizeOfVarInt (u : Z) : nat :=
  if u <? 2 ^ 7 then 1
  else if u <? 2 ^ 14 then 2
  else if u <? 2 ^ 21 then 3
  else if u <? 2 ^ 28 then 4
  else 5.

(** The value a byte sequence denotes under the scheme: seven payload bits
    per byte, least significant group first. *)
Fixpoint payloadOf (bytes : Buffer) : Z :=
  match bytes with
  | [] => 0
  | b :: rest => Z.land b 127 + 128 * payloadOf rest
  end.

(** The continuation bits are in order: the high bit is set on every byte
    but the last, and clear on the last. *)
Fixpoint framed (bytes : Buffer) : bool :=
  match bytes with
  | [] => false
  | b :: rest =>
      match rest with
      | [] => (0 <=? b) && (b <? 128)
      | _ :: _ => (128 <=? b) && (b <? 256) && framed rest
      end
  end.

Definition representable32 (v : Z) : Prop := - 2 ^ 31 <= v < 2 ^ 32.

(** What it means for [bytes] to be the minimal VarInt of [v]. *)
Definition MinimalVarInt (v : Z) (bytes : Buffer) : Prop :=
  framed bytes = true
  /\ payloadOf bytes = leb.toUint32 v
  /\ List.length bytes = sizeOfVarInt (leb.toUint32 v)
  /\ (forall other : Buffer,
         other <> [] -> payloadOf other = leb.toUint32 v ->
         (List.length bytes <= List.length other)%nat)
  /\ (0 <= v -> leb.toUint32 v = v).

(** A packet on the wire: the VarInt of the length of the body, then the
    body (what [buildPacket] writes). *)
Definition framePacket (body : Buffer) : Buffer :=
  minecraft.encodeVarInt (blen body) ++ body.

(** All the bytes that a sequence of reads delivers. *)
Fixpoint received (reads : list (option Buffer)) : Buffer :=
  match reads with
  | [] => []
  | Some chunk :: reads' => chunk ++ received reads'
  | None :: reads' => received reads'
  end.

(** Every byte announces another one. *)
Definition allContinue (bytes : Buffer) : bool :=
  forallb (fun b => negb (Z.land b 128 =? 0)) bytes.

(** Reading a handshake packet back, field by field, as the wire format
    lays it out: length, packet id, protocol version, server address
    (length-prefixed), port (two bytes, big-endian), next state. *)
Definition takeVarInt (bytes : Buffer) : option (Z * Buffer) :=
  match leb.decodeInt32 bytes 0 with
  | Ok d => Some (leb.value d, skipn (Z.to_nat (leb.nextIndex d)) bytes)
  | Err _ => None
  end.

Record HandshakeFields : Type := mkFields {
  f_protocolVersion : Z;
  f_serverAddress : Buffer;
  f_port : Z;
  f_nextState : Z
}.

Definition handshakeFields (packet : Buffer) : option HandshakeFields :=
  match takeVarInt packet with
  | None => None
  | Some (_, body) =>
      match takeVarInt body with
      | None => None
      | Some (_, afterId) =>
          match takeVarInt afterId with
          | None => None
          | Some (version, afterVersion) =>
              match takeVarInt afterVersion with
              | None => None
              | Some (len, afterLen) =>
                  let address := firstn (Z.to_nat len) afterLen in
                  match skipn (Z.to_nat len) afterLen with
                  | high :: low :: afterPort =>
                      match takeVarInt afterPort with
                      | None => None
                      | Some (state, _) =>
                          Some (mkFields version address (256 * high + low)
                                         state)
                      end
                  | _ => None
                  end
              end
          end
      end
  end.

(** The end-to-end example of the specification: the request for
    [play.example.com] without a port, and a DNS answer that redirects to
    [backend.example.com:25566]. *)
Definition exampleRequest : worker.Request :=
  worker.mkRequest (Some (lit "play.example.com")) None None.

Definition exampleDoh (_ : srv.SrvQuery) : HttpExchange :=
  Responded true
    (Ok (JObject
           [(lit "Status", JNumber 0);
            (lit "Answer",
             JArray
               [JObject
                  [(lit "name", JString (lit "_minecraft._tcp.play.example.com"));
                   (lit "type", JNumber (inject_Z 33));
                   (lit "TTL", JNumber (inject_Z 300));
                   (lit "data", JString (lit "0 5 25566 backend.example.com."))]])])).

Definition exampleTarget : srv.ResolvedSrvTarget :=
  srv.mkTarget (lit "backend.example.com") 25566.

(** The status response of a server, as the wire format lays it out:
    length, packet id 0, then the JSON text prefixed by its length. *)
Definition statusResponsePacket (json : Buffer) : Buffer :=
  minecraft.buildPacket minecraft.PACKET_STATUS_RESPONSE
    (Some (minecraft.encodeVarInt (blen json) ++ json)).

Definition isClose (action : minecraft.SocketAction) : bool :=
  match action with
  | minecraft.Close => true
  | _ => false
  end.

Definition closes (trace : list minecraft.SocketAction) : nat :=
  List.length (filter isClose trace).

Definition isRelease (action : minecraft.SocketAction) : bool :=
  match action with
  | minecraft.ReleaseWriter | minecraft.ReleaseReader => true
  | _ => false
  end.

Definition isAscii (c : Z) : bool := (0 <=? c) && (c <=? 127).

(** The number that a string of decimal digits writes. *)
Definition decimalValue (digits : JsString) : Z :=
  fold_left (fun acc c => 10 * acc + (c - 48)) digits 0.

Definition PORT_MESSAGE : string :=
  "'port' must be an integer between 1 and 65535".

(** The bytes of a packet after its length prefix. *)
Definition packetBody (packetId : Z) (payload : option Buffer) : Buffer :=
  match payload with
  | Some p => minecraft.encodeVarInt packetId ++ p
  | None => minecraft.encodeVarInt packetId
  end.





(** Actions that are writes only: no lock released, nothing closed. *)
Definition onlyWrites (trace : list minecraft.SocketAction) : bool :=
  forallb (fun action =>
             match action with
             | minecraft.Write _ => true
             | _ => false
             end) trace.

(** A transport on which both writes resolve and the stream delivers
    [reads] and then reports [done]. *)
Definition cooperative (reads : list (option Buffer)) : race.Transport :=
  race.mkTransport race.Resolves race.Resolves reads race.Done None None.

(** A transport on which the writes resolve, nothing is delivered, and
    the pending read is rejected in the end, as when the socket is closed
    under it. *)
Definition silentThenRejected : race.Transport :=
  race.mkTransport race.Resolves race.Resolves []
    (race.ReadRejects (Error "Network connection lost")) None None.

(** A transport on which the first write never settles. *)
Definition stalled : race.Transport :=
  race.mkTransport race.Never race.Never [] race.ReadNever None None.

Definition examplePing : minecraft.PingOptions :=
  minecraft.mkPingOptions (lit "a.b") 25565 (lit "a.b") None None.

(** * Properties *)

(** ** Bytes and bits *)

Lemma land_low_127 u : Z.land (Z.land u 127) 127 = Z.land u 127.
Proof. now rewrite <- Z.land_assoc. Qed.

Lemma land_low_128 u : Z.land (Z.land u 127) 128 = 0.
Proof. rewrite <- Z.land_assoc. apply Z.land_0_r. Qed.

Lemma land_cont_127 u : Z.land (Z.lor (Z.land u 127) 128) 127 = Z.land u 127.
Proof.
  rewrite Z.land_lor_distr_l, land_low_127.
  change (Z.land 128 127) with 0. apply Z.lor_0_r.
Qed.

Lemma land_cont_128 u : Z.land (Z.lor (Z.land u 127) 128) 128 = 128.
Proof. now rewrite Z.land_lor_distr_l, land_low_128. Qed.

Lemma split_low7 u : Z.lor (Z.land u 127) (Z.shiftl (Z.shiftr u 7) 7) = u.
Proof.
  apply Z.bits_inj'. intros n Hn.
  rewrite Z.lor_spec, Z.land_spec.
  destruct (Z.lt_ge_cases n 7) as [Hlt | Hge].
  - rewrite Z.shiftl_spec_low by lia.
    change 127 with (Z.ones 7). rewrite Z.ones_spec_low by lia.
    now rewrite andb_true_r, orb_false_r.
  - rewrite Z.shiftl_spec by lia. rewrite Z.shiftr_spec by lia.
    change 127 with (Z.ones 7). rewrite Z.ones_spec_high by lia.
    rewrite andb_false_r. simpl. f_equal. lia.
Qed.

(** ** The VarInt codec *)

Lemma shiftr7_bound fuel u :
  0 <= u < 2 ^ (7 * Z.of_nat (S fuel)) ->
  0 <= Z.shiftr u 7 < 2 ^ (7 * Z.of_nat fuel).
Proof.
  intros [H0 H1]. rewrite Z.shiftr_div_pow2 by lia.
  replace (7 * Z.of_nat (S fuel)) with (7 * Z.of_nat fuel + 7) in H1 by lia.
  rewrite Z.pow_add_r in H1 by lia.
  split.
  - apply Z.div_pos; lia.
  - apply Z.div_lt_upper_bound; lia.
Qed.

Lemma fuel_left fuel r :
  0 <= r < 2 ^ (7 * Z.of_nat fuel) -> r <> 0 -> fuel <> O.
Proof. intros H Hr ->. simpl in H. lia. Qed.

(** Decoding what [encodeLoop] wrote, whatever follows it in the buffer. *)
Lemma decodeLoop_encodeLoop fuel :
  forall u tail shift acc index,
    fuel <> O ->
    0 <= u < 2 ^ (7 * Z.of_nat fuel) ->
    0 <= shift ->
    leb.decodeLoop fuel (leb.encodeLoop fuel u ++ tail) shift acc index
    = Ok (leb.mkDecoded (leb.toInt32 (Z.lor acc (Z.shiftl u shift)))
                        (index + blen (leb.encodeLoop fuel u))).
Proof.
  induction fuel as [| fuel IH]; intros u tail shift acc index Hf Hu Hs.
  - contradiction.
  - pose proof (shiftr7_bound fuel u Hu) as Hr.
    cbn [leb.encodeLoop leb.decodeLoop].
    destruct (Z.shiftr u 7 =? 0) eqn:E.
    + apply Z.eqb_eq in E.
      cbn [app]. rewrite land_low_128, land_low_127. cbn [Z.eqb].
      pose proof (split_low7 u) as Hsplit. rewrite E in Hsplit.
      rewrite Z.shiftl_0_l, Z.lor_0_r in Hsplit. rewrite Hsplit.
      reflexivity.
    + apply Z.eqb_neq in E.
      cbn [app]. rewrite land_cont_128, land_cont_127. cbn [Z.eqb].
      rewrite IH; [| eapply fuel_left; eauto | assumption | lia].
      f_equal. f_equal.
      * f_equal. rewrite <- Z.lor_assoc. f_equal.
        replace (shift + 7) with (7 + shift) by lia.
        rewrite <- (Z.shiftl_shiftl _ 7 shift) by lia.
        rewrite <- Z.shiftl_lor. now rewrite split_low7.
      * unfold blen. cbn [List.length]. lia.
Qed.

(** A strict prefix of an encoding stops the decoder for want of bytes. *)
Lemma decodeLoop_prefix fuel :
  forall u k shift acc index,
    fuel <> O ->
    0 <= u < 2 ^ (7 * Z.of_nat fuel) ->
    (k < List.length (leb.encodeLoop fuel u))%nat ->
    leb.decodeLoop fuel (firstn k (leb.encodeLoop fuel u)) shift acc index
    = Err leb.NeedMoreData.
Proof.
  induction fuel as [| fuel IH]; intros u k shift acc index Hf Hu Hk.
  - contradiction.
  - pose proof (shiftr7_bound fuel u Hu) as Hr.
    cbn [leb.encodeLoop] in *.
    destruct (Z.shiftr u 7 =? 0) eqn:E.
    + cbn [List.length] in Hk. assert (k = O) as -> by lia. reflexivity.
    + apply Z.eqb_neq in E. destruct k as [| k]; [reflexivity |].
      cbn [firstn leb.decodeLoop]. rewrite land_cont_128. cbn [Z.eqb].
      apply IH; [eapply fuel_left; eauto | assumption |].
      cbn [List.length] in Hk. lia.
Qed.

Lemma toUint32_range v : 0 <= leb.toUint32 v < 2 ^ 32.
Proof. unfold leb.toUint32. apply Z.mod_pos_bound. lia. Qed.

Lemma toUint32_fuel v : 0 <= leb.toUint32 v < 2 ^ (7 * Z.of_nat 5).
Proof. pose proof (toUint32_range v). change (2 ^ (7 * Z.of_nat 5)) with (2 ^ 35). lia. Qed.

Lemma toInt32_toUint32 v :
  - 2 ^ 31 <= v < 2 ^ 31 -> leb.toInt32 (leb.toUint32 v) = v.
Proof.
  intros H. unfold leb.toInt32, leb.toUint32.
  rewrite Zplus_mod_idemp_l. rewrite Z.mod_small; lia.
Qed.

Lemma encodeLoop_length u :
  0 <= u < 2 ^ 32 -> List.length (leb.encodeLoop 5 u) = sizeOfVarInt u.
Proof.
  intros Hu. unfold sizeOfVarInt. cbn [leb.encodeLoop].
  rewrite !Z.shiftr_div_pow2 by lia.
  change (2 ^ 7) with 128. change (2 ^ 14) with 16384.
  change (2 ^ 21) with 2097152. change (2 ^ 28) with 268435456.
  change (2 ^ 32) with 4294967296 in Hu.
  repeat match goal with
         | |- context [?a =? 0] => destruct (Z.eqb_spec a 0)
         end;
  repeat match goal with
         | |- context [?a <? ?b] => destruct (Z.ltb_spec a b)
         end;
  cbn [List.length]; try reflexivity; exfalso;
  Z.to_euclidean_division_equations; lia.
Qed.

Lemma land127_mod u : Z.land u 127 = u mod 128.
Proof. change 127 with (Z.ones 7). now rewrite Z.land_ones by lia. Qed.

Lemma lor_cont u : Z.lor (Z.land u 127) 128 = u mod 128 + 128.
Proof.
  rewrite <- Z.lxor_lor by apply land_low_128.
  rewrite <- Z.add_nocarry_lxor by apply land_low_128.
  now rewrite land127_mod.
Qed.

Lemma framed_cons b rest :
  rest <> [] ->
  framed (b :: rest) = (128 <=? b) && (b <? 256) && framed rest.
Proof. destruct rest; [contradiction | reflexivity]. Qed.

Lemma encodeLoop_nonempty fuel u : fuel <> O -> leb.encodeLoop fuel u <> [].
Proof.
  destruct fuel; [contradiction |]. intros _. cbn [leb.encodeLoop].
  destruct (Z.shiftr u 7 =? 0); discriminate.
Qed.

Lemma encodeLoop_payload fuel :
  forall u,
    fuel <> O ->
    0 <= u < 2 ^ (7 * Z.of_nat fuel) ->
    payloadOf (leb.encodeLoop fuel u) = u
    /\ framed (leb.encodeLoop fuel u) = true.
Proof.
  induction fuel as [| fuel IH]; intros u Hf Hu; [contradiction |].
  pose proof (shiftr7_bound fuel u Hu) as Hr.
  cbn [leb.encodeLoop].
  destruct (Z.shiftr u 7 =? 0) eqn:E.
  - apply Z.eqb_eq in E. rewrite Z.shiftr_div_pow2 in E by lia.
    change (2 ^ 7) with 128 in E.
    cbn [payloadOf framed]. rewrite land_low_127, land127_mod.
    pose proof (Z.mod_pos_bound u 128 ltac:(lia)).
    split; [Z.to_euclidean_division_equations; lia |].
    apply andb_true_intro; split; [apply Z.leb_le | apply Z.ltb_lt]; lia.
  - apply Z.eqb_neq in E.
    assert (Hf' : fuel <> O) by (eapply fuel_left; eauto).
    destruct (IH (Z.shiftr u 7) Hf' Hr) as [Hp Hw].
    split.
    { cbn [payloadOf]. rewrite land_cont_127, Hp, land127_mod.
      rewrite Z.shiftr_div_pow2 by lia. change (2 ^ 7) with 128.
      Z.to_euclidean_division_equations; lia. }
    rewrite framed_cons by now apply encodeLoop_nonempty.
    rewrite Hw, andb_true_r, lor_cont.
    pose proof (Z.mod_pos_bound u 128 ltac:(lia)).
    apply andb_true_intro; split; [apply Z.leb_le | apply Z.ltb_lt]; lia.
Qed.

Lemma payloadOf_bound (bytes : Buffer) :
  0 <= payloadOf bytes < 128 ^ Z.of_nat (List.length bytes).
Proof.
  induction bytes as [| b rest IH].
  - simpl. lia.
  - cbn [payloadOf List.length]. rewrite Nat2Z.inj_succ, Z.pow_succ_r by lia.
    rewrite land127_mod. pose proof (Z.mod_pos_bound b 128 ltac:(lia)). nia.
Qed.

Lemma sizeOfVarInt_least (other : Buffer) :
  other <> [] ->
  (sizeOfVarInt (payloadOf other) <= List.length other)%nat.
Proof.
  intros Hne. pose proof (payloadOf_bound other) as Hb.
  unfold sizeOfVarInt.
  destruct other as [| b0 [| b1 [| b2 [| b3 [| b4 rest]]]]];
    [contradiction | | | | |];
    cbn [List.length] in *;
    repeat match goal with
           | |- context [?a <? ?b] => destruct (Z.ltb_spec a b)
           end; try lia.
  all: exfalso.
  all: match type of Hb with
       | _ <= _ < 128 ^ ?n => let k := eval compute in (128 ^ n) in
                             change (128 ^ n) with k in Hb
       end.
  all: change (2 ^ 7) with 128 in *; change (2 ^ 14) with 16384 in *;
       change (2 ^ 21) with 2097152 in *; change (2 ^ 28) with 268435456 in *;
       lia.
Qed.

(** General round trip of the codec on signed 32-bit integers. *)
Lemma decodeInt32_encodeInt32 (v : Z) (tail : Buffer) :
  - 2 ^ 31 <= v < 2 ^ 31 ->
  leb.decodeInt32 (leb.encodeInt32 v ++ tail) 0
  = Ok (leb.mkDecoded v (blen (leb.encodeInt32 v))).
Proof.
  intros Hv. unfold leb.decodeInt32, leb.encodeInt32.
  change (Z.to_nat 0) with O. cbn [skipn].
  rewrite decodeLoop_encodeLoop;
    [| discriminate | apply toUint32_fuel | lia].
  rewrite Z.shiftl_0_r, Z.lor_0_l, toInt32_toUint32 by assumption.
  reflexivity.
Qed.

(** C5. For every value representable in 32 bits, [encodeInt32] yields a
    byte sequence (it is a total function) that is the minimal one of the
    scheme: its continuation bits are in order, it denotes the value, it
    has 1 byte for 0..127, 2 for 128..16383, 3 up to 2097151, 4 up to
    268435455 and 5 beyond, and no non-empty sequence denoting the same
    value is shorter. *)
Theorem encodeInt32_minimal (v : Z) :
  representable32 v -> MinimalVarInt v (leb.encodeInt32 v).
Proof.
  intros Hv. unfold MinimalVarInt, leb.encodeInt32.
  pose proof (toUint32_range v) as Hu.
  destruct (encodeLoop_payload 5 (leb.toUint32 v) ltac:(discriminate)
              (toUint32_fuel v)) as [Hp Hw].
  repeat split.
  - exact Hw.
  - exact Hp.
  - now apply encodeLoop_length.
  - intros other Hne Hval. rewrite encodeLoop_length by assumption.
    rewrite <- Hval. now apply sizeOfVarInt_least.
  - intros H0. unfold leb.toUint32. apply Z.mod_small.
    unfold representable32 in Hv. lia.
Qed.

Lemma encodeInt32_minimal_witness :
  representable32 300 /\ MinimalVarInt 300 [172; 2].
Proof.
  split.
  - unfold representable32. lia.
  - apply (encodeInt32_minimal 300). unfold representable32. lia.
Defined.

(** C8. For each of the listed integers, decoding its encoding at offset 0
    gives back the integer together with the number of bytes of the
    encoding. *)
Theorem varint_roundtrip_listed :
  Forall (fun v =>
            leb.decodeInt32 (leb.encodeInt32 v) 0
            = Ok (leb.mkDecoded v (blen (leb.encodeInt32 v))))
         [0; 1; 127; 128; 16383; 16384; 2097151; 2097152; 268435455;
          2147483647].
Proof. repeat constructor. Qed.

(** C2, as the code has it. The handshake for protocol version 765, server
    address "localhost" and port 25565 is the 17 bytes
    10 00 fd 05 09 6c 6f 63 61 6c 68 6f 73 74 63 dd 01: the VarInt of 765
    is fd 05. *)
Theorem handshake_localhost_765 :
  minecraft.buildHandshakePacket (lit "localhost") 25565 765
  = Ok [0x10; 0x00; 0xfd; 0x05; 0x09; 0x6c; 0x6f; 0x63; 0x61; 0x6c; 0x68;
        0x6f; 0x73; 0x74; 0x63; 0xdd; 0x01].
Proof. reflexivity. Qed.

(** C2, as the specification has it, fails: the bytes f9 05 are the VarInt
    of 761, not of 765. *)
Lemma handshake_localhost_765_not_f9 :
  minecraft.buildHandshakePacket (lit "localhost") 25565 765
  <> Ok [0x10; 0x00; 0xf9; 0x05; 0x09; 0x6c; 0x6f; 0x63; 0x61; 0x6c; 0x68;
         0x6f; 0x73; 0x74; 0x63; 0xdd; 0x01].
Proof. discriminate. Qed.

Example handshake_localhost_761 :
  minecraft.buildHandshakePacket (lit "localhost") 25565 761
  = Ok [0x10; 0x00; 0xf9; 0x05; 0x09; 0x6c; 0x6f; 0x63; 0x61; 0x6c; 0x68;
        0x6f; 0x73; 0x74; 0x63; 0xdd; 0x01].
Proof. reflexivity. Qed.

(** ** Inbound frame reassembly *)

Lemma received_chunks (chunks : list Buffer) :
  received (map Some chunks) = List.concat chunks.
Proof. induction chunks as [| c cs IH]; cbn; congruence. Qed.

Lemma accumulate_eq (buffer chunk : Buffer) :
  (if blen buffer =? 0 then chunk else buffer ++ chunk) = buffer ++ chunk.
Proof. destruct buffer; reflexivity. Qed.

Lemma blen_app (a b : Buffer) : blen (a ++ b) = blen a + blen b.
Proof. unfold blen. rewrite length_app. lia. Qed.

Lemma blen_nonneg (a : Buffer) : 0 <= blen a.
Proof. unfold blen. lia. Qed.

(** Whatever the decoder throws, the reader goes on to the next read. *)
Lemma readPacketStep_decode_error (buffer chunk : Buffer) e :
  leb.decodeInt32 (buffer ++ chunk) 0 = Err e ->
  minecraft.readPacketStep buffer (Some chunk) = minecraft.Continue (buffer ++ chunk).
Proof.
  intros H. unfold minecraft.readPacketStep.
  rewrite accumulate_eq, H. reflexivity.
Qed.

Lemma readPacketStep_decoded (buffer chunk : Buffer) d :
  leb.decodeInt32 (buffer ++ chunk) 0 = Ok d ->
  minecraft.readPacketStep buffer (Some chunk)
  = if blen (buffer ++ chunk) >=? leb.nextIndex d + leb.value d
    then minecraft.Return
           (minecraft.subarray (buffer ++ chunk) 0 (leb.nextIndex d + leb.value d))
    else minecraft.Continue (buffer ++ chunk).
Proof.
  intros H. unfold minecraft.readPacketStep.
  rewrite accumulate_eq, H. reflexivity.
Qed.

Lemma subarray_prefix (packet extra : Buffer) :
  minecraft.subarray (packet ++ extra) 0 (blen packet) = packet.
Proof.
  unfold minecraft.subarray, minecraft.clampIndex.
  pose proof (blen_nonneg packet). pose proof (blen_nonneg extra).
  rewrite blen_app. cbn [Z.ltb Z.compare].
  destruct (blen packet <? 0) eqn:E; [apply Z.ltb_lt in E; lia |].
  rewrite Z.min_l, Z.min_l by lia.
  rewrite Z.sub_0_r, Z.max_l by lia.
  change (Z.to_nat 0) with O. cbn [skipn].
  unfold blen. rewrite Nat2Z.id.
  rewrite firstn_app, Nat.sub_diag, firstn_all. cbn [firstn].
  apply app_nil_r.
Qed.

Lemma prefix_of_app {A} (a b p e : list A) :
  a ++ b = p ++ e ->
  (List.length a <= List.length p)%nat ->
  a = firstn (List.length a) p.
Proof.
  revert p. induction a as [| x a IH]; intros p Heq Hlen; [reflexivity |].
  destruct p as [| y p]; cbn [List.length] in Hlen; [lia |].
  cbn in Heq. injection Heq as -> Heq.
  cbn [List.length firstn]. f_equal. apply IH; [exact Heq | lia].
Qed.

Lemma app_covers {A} (a b p e : list A) :
  a ++ b = p ++ e ->
  (List.length p <= List.length a)%nat ->
  a = p ++ skipn (List.length p) a.
Proof.
  revert a. induction p as [| y p IH]; intros a Heq Hlen; [reflexivity |].
  destruct a as [| x a]; cbn [List.length] in Hlen; [lia |].
  cbn in Heq. injection Heq as -> Heq.
  cbn [List.length skipn app]. f_equal. apply IH; [exact Heq | lia].
Qed.

Section Reassembly.

Variable body : Buffer.
Hypothesis body_short : blen body < 2 ^ 31.

Let header := minecraft.encodeVarInt (blen body).
Let packet := framePacket body.

Lemma header_decodes (tail : Buffer) :
  leb.decodeInt32 (header ++ tail) 0
  = Ok (leb.mkDecoded (blen body) (blen header)).
Proof.
  apply decodeInt32_encodeInt32. pose proof (blen_nonneg body). lia.
Qed.

Lemma packet_length : blen packet = blen header + blen body.
Proof. apply blen_app. Qed.

(** While the buffer is a strict prefix of the packet the reader keeps
    accumulating. *)
Lemma readPacketStep_short (buffer chunk : Buffer) (k : nat) :
  buffer ++ chunk = firstn k packet ->
  (k < List.length packet)%nat ->
  minecraft.readPacketStep buffer (Some chunk)
  = minecraft.Continue (buffer ++ chunk).
Proof.
  intros Heq Hk.
  destruct (Nat.lt_ge_cases k (List.length header)) as [Hlt | Hge].
  - apply readPacketStep_decode_error with (e := leb.NeedMoreData).
    rewrite Heq. unfold packet, framePacket. fold header.
    rewrite firstn_app.
    replace (k - List.length header)%nat with O by lia.
    cbn [firstn]. rewrite app_nil_r.
    unfold leb.decodeInt32. change (Z.to_nat 0) with O. cbn [skipn].
    apply decodeLoop_prefix;
      [discriminate | apply toUint32_fuel | exact Hlt].
  - assert (Hdec : leb.decodeInt32 (buffer ++ chunk) 0
                   = Ok (leb.mkDecoded (blen body) (blen header))).
    { rewrite Heq. unfold packet, framePacket. fold header.
      rewrite firstn_app, firstn_all2 by lia. apply header_decodes. }
    rewrite (readPacketStep_decoded _ _ _ Hdec). cbn [leb.nextIndex leb.value].
    assert (Hlen : blen (buffer ++ chunk) < blen header + blen body).
    { rewrite Heq, <- packet_length. unfold blen.
      rewrite length_firstn. lia. }
    destruct (blen (buffer ++ chunk) >=? blen header + blen body) eqn:E;
      [| reflexivity].
    apply Z.geb_le in E. lia.
Qed.

(** As soon as the buffer holds the whole packet the reader returns
    exactly the packet, whatever follows it. *)
Lemma readPacketStep_full (buffer chunk extra : Buffer) :
  buffer ++ chunk = packet ++ extra ->
  minecraft.readPacketStep buffer (Some chunk) = minecraft.Return packet.
Proof.
  intros Heq.
  assert (Hdec : leb.decodeInt32 (buffer ++ chunk) 0
                 = Ok (leb.mkDecoded (blen body) (blen header))).
  { rewrite Heq. unfold packet, framePacket. fold header.
    rewrite <- app_assoc. apply header_decodes. }
  rewrite (readPacketStep_decoded _ _ _ Hdec). cbn [leb.nextIndex leb.value].
  rewrite <- packet_length, Heq, blen_app.
  pose proof (blen_nonneg extra).
  destruct (blen packet + blen extra >=? blen packet) eqn:E.
  - now rewrite subarray_prefix.
  - rewrite Z.geb_leb in E. apply Z.leb_gt in E. lia.
Qed.

Lemma readPacketLoop_reassembles (reads : list (option Buffer)) :
  forall (buffer extra : Buffer),
    buffer ++ received reads = packet ++ extra ->
    (List.length buffer < List.length packet)%nat ->
    minecraft.readPacketLoop buffer reads = Ok packet.
Proof.
  induction reads as [| [chunk |] reads IH]; intros buffer extra Heq Hlen.
  - cbn [received] in Heq. rewrite app_nil_r in Heq.
    apply (f_equal (@List.length Z)) in Heq. rewrite length_app in Heq. lia.
  - cbn [received] in Heq. rewrite app_assoc in Heq.
    cbn [minecraft.readPacketLoop].
    destruct (Nat.lt_ge_cases (List.length (buffer ++ chunk))
                              (List.length packet)) as [Hlt | Hge].
    + rewrite readPacketStep_short with (k := List.length (buffer ++ chunk));
        [now apply IH with (extra := extra) | | exact Hlt].
      apply prefix_of_app with (b := received reads) (e := extra);
        [exact Heq | lia].
    + rewrite readPacketStep_full
        with (extra := skipn (List.length packet) (buffer ++ chunk));
        [reflexivity |].
      apply app_covers with (b := received reads) (e := extra);
        [exact Heq | lia].
  - cbn [received] in Heq. cbn [minecraft.readPacketLoop minecraft.readPacketStep].
    now apply IH with (extra := extra).
Qed.

Lemma packet_nonempty : (0 < List.length packet)%nat.
Proof.
  unfold packet, framePacket. rewrite length_app.
  pose proof (encodeLoop_nonempty 5 (leb.toUint32 (blen body))
                ltac:(discriminate)) as Hne.
  unfold minecraft.encodeVarInt, leb.encodeInt32.
  destruct (leb.encodeLoop 5 (leb.toUint32 (blen body)));
    [contradiction | cbn [List.length]; lia].
Qed.

Lemma readPacket_reassembles (reads : list (option Buffer)) (extra : Buffer) :
  received reads = packet ++ extra ->
  minecraft.readPacket reads = Ok packet.
Proof.
  intros H. unfold minecraft.readPacket.
  apply readPacketLoop_reassembles with (extra := extra);
    [exact H | apply packet_nonempty].
Qed.

End Reassembly.

(** C7. Whatever way the bytes of one valid packet are cut into chunks
    (one byte at a time included), the reader returns exactly that packet,
    as it does when the packet arrives in one piece; and when the length
    prefix cannot be decoded yet for want of bytes, the reader keeps
    accumulating. *)
Theorem readPacket_chunking_invariant (body : Buffer) (chunks : list Buffer) :
  blen body < 2 ^ 31 ->
  List.concat chunks = framePacket body ->
  minecraft.readPacket (map Some chunks) = Ok (framePacket body)
  /\ minecraft.readPacket (map Some chunks)
     = minecraft.readPacket [Some (framePacket body)]
  /\ (forall buffer chunk : Buffer,
         leb.decodeInt32 (buffer ++ chunk) 0 = Err leb.NeedMoreData ->
         minecraft.readPacketStep buffer (Some chunk)
         = minecraft.Continue (buffer ++ chunk)).
Proof.
  intros Hshort Hcut.
  assert (Hsplit : minecraft.readPacket (map Some chunks)
                   = Ok (framePacket body)).
  { apply readPacket_reassembles with (extra := []); [exact Hshort |].
    now rewrite received_chunks, app_nil_r. }
  assert (Hwhole : minecraft.readPacket [Some (framePacket body)]
                   = Ok (framePacket body)).
  { apply readPacket_reassembles with (extra := []); [exact Hshort |].
    cbn [received]. reflexivity. }
  repeat split.
  - exact Hsplit.
  - now rewrite Hsplit, Hwhole.
  - intros buffer chunk. apply readPacketStep_decode_error.
Qed.

Lemma readPacket_chunking_invariant_witness :
  blen [0; 2; 123; 125] < 2 ^ 31
  /\ List.concat [[4]; [0]; [2]; [123]; [125]] = framePacket [0; 2; 123; 125]
  /\ minecraft.readPacket (map Some [[4]; [0]; [2]; [123]; [125]])
     = Ok (framePacket [0; 2; 123; 125]).
Proof.
  split; [reflexivity |]. split; [reflexivity |].
  apply (readPacket_chunking_invariant [0; 2; 123; 125]
           [[4]; [0]; [2]; [123]; [125]]); reflexivity.
Defined.

(** ** Failures of the length prefix *)

Lemma decodeLoop_starved fuel :
  forall bytes shift acc index,
    allContinue bytes = true ->
    (List.length bytes < fuel)%nat ->
    leb.decodeLoop fuel bytes shift acc index = Err leb.NeedMoreData.
Proof.
  induction fuel as [| fuel IH]; intros bytes shift acc index Hall Hlen; [lia |].
  destruct bytes as [| b bytes]; [reflexivity |].
  cbn [allContinue forallb] in Hall. apply andb_prop in Hall as [Hb Hall].
  cbn [leb.decodeLoop]. apply negb_true_iff in Hb. rewrite Hb.
  apply IH; [exact Hall | cbn [List.length] in Hlen; lia].
Qed.

Lemma decodeLoop_too_long fuel :
  forall bytes tail shift acc index,
    allContinue bytes = true ->
    List.length bytes = fuel ->
    leb.decodeLoop fuel (bytes ++ tail) shift acc index = Err leb.Overlong.
Proof.
  induction fuel as [| fuel IH]; intros bytes tail shift acc index Hall Hlen;
    [reflexivity |].
  destruct bytes as [| b bytes]; [discriminate |].
  cbn [allContinue forallb] in Hall. apply andb_prop in Hall as [Hb Hall].
  cbn [leb.decodeLoop app]. apply negb_true_iff in Hb. rewrite Hb.
  apply IH; [exact Hall | now injection Hlen].
Qed.

(** More bytes do not cure an overlong prefix. *)
Lemma decodeLoop_overlong_app fuel :
  forall bytes more shift acc index,
    leb.decodeLoop fuel bytes shift acc index = Err leb.Overlong ->
    leb.decodeLoop fuel (bytes ++ more) shift acc index = Err leb.Overlong.
Proof.
  induction fuel as [| fuel IH]; intros bytes more shift acc index H;
    [reflexivity |].
  destruct bytes as [| b bytes]; [discriminate |].
  cbn [leb.decodeLoop app] in *.
  destruct (Z.land b 128 =? 0); [discriminate |]. now apply IH.
Qed.

Lemma readPacketLoop_overlong (reads : list (option Buffer)) :
  forall buffer,
    leb.decodeInt32 buffer 0 = Err leb.Overlong ->
    minecraft.readPacketLoop buffer reads
    = Err (Error minecraft.CONNECTION_CLOSED).
Proof.
  induction reads as [| [chunk |] reads IH]; intros buffer H.
  - reflexivity.
  - assert (H' : leb.decodeInt32 (buffer ++ chunk) 0 = Err leb.Overlong)
      by now apply decodeLoop_overlong_app.
    cbn [minecraft.readPacketLoop].
    rewrite (readPacketStep_decode_error _ _ _ H'). now apply IH.
  - cbn [minecraft.readPacketLoop minecraft.readPacketStep]. now apply IH.
Qed.

(** A prefix of bytes that decode as overlong does not decode. *)
Lemma decodeLoop_overlong_prefix fuel :
  forall bytes more shift acc index,
    leb.decodeLoop fuel (bytes ++ more) shift acc index = Err leb.Overlong ->
    exists e, leb.decodeLoop fuel bytes shift acc index = Err e.
Proof.
  induction fuel as [| fuel IH]; intros bytes more shift acc index H.
  - now exists leb.Overlong.
  - destruct bytes as [| b bytes]; [now exists leb.NeedMoreData |].
    cbn [leb.decodeLoop app] in *.
    destruct (Z.land b 128 =? 0); [discriminate |].
    eapply IH; eauto.
Qed.

Lemma readPacketLoop_overlong_stream (reads : list (option Buffer)) :
  forall buffer,
    leb.decodeInt32 (buffer ++ received reads) 0 = Err leb.Overlong ->
    minecraft.readPacketLoop buffer reads
    = Err (Error minecraft.CONNECTION_CLOSED).
Proof.
  induction reads as [| [chunk |] reads IH]; intros buffer H.
  - reflexivity.
  - cbn [received] in H. rewrite app_assoc in H.
    destruct (decodeLoop_overlong_prefix 5 (buffer ++ chunk) (received reads)
                0 0 0 H) as [e He].
    cbn [minecraft.readPacketLoop].
    rewrite (readPacketStep_decode_error buffer chunk e He). now apply IH.
  - cbn [received] in H.
    cbn [minecraft.readPacketLoop minecraft.readPacketStep]. now apply IH.
Qed.

(** C4, as the code has it. The decoder has two different failures: fewer
    than five bytes that all announce a successor are "need more data",
    five such bytes are "overlong" whatever follows. The packet reader
    does not tell them apart: on either failure of the length prefix it
    keeps accumulating, so that every stream whose bytes begin with an
    overlong prefix, however they are cut into reads and whatever reads
    without a value come in between, is read to its end and fails there
    with the connection-closed error. *)
Theorem decode_failures_and_reader :
  (forall bytes : Buffer,
      allContinue bytes = true -> (List.length bytes < 5)%nat ->
      leb.decodeInt32 bytes 0 = Err leb.NeedMoreData)
  /\ (forall bytes tail : Buffer,
         allContinue bytes = true -> List.length bytes = 5%nat ->
         leb.decodeInt32 (bytes ++ tail) 0 = Err leb.Overlong)
  /\ (forall (buffer chunk : Buffer) (e : leb.DecodeError),
         leb.decodeInt32 (buffer ++ chunk) 0 = Err e ->
         minecraft.readPacketStep buffer (Some chunk)
         = minecraft.Continue (buffer ++ chunk))
  /\ (forall (first : Buffer) (reads : list (option Buffer)),
         leb.decodeInt32 first 0 = Err leb.Overlong ->
         minecraft.readPacket (Some first :: reads)
         = Err (Error minecraft.CONNECTION_CLOSED))
  /\ (forall reads : list (option Buffer),
         leb.decodeInt32 (received reads) 0 = Err leb.Overlong ->
         minecraft.readPacket reads
         = Err (Error minecraft.CONNECTION_CLOSED))
  /\ (forall (reads : list (option Buffer)) (bytes tail : Buffer),
         allContinue bytes = true -> List.length bytes = 5%nat ->
         received reads = bytes ++ tail ->
         minecraft.readPacket reads
         = Err (Error minecraft.CONNECTION_CLOSED)).
Proof.
  split; [intros bytes Hall Hlen; now apply decodeLoop_starved |].
  split; [intros bytes tail Hall Hlen; now apply decodeLoop_too_long |].
  split; [apply readPacketStep_decode_error |].
  split.
  { intros first reads H. unfold minecraft.readPacket.
    cbn [minecraft.readPacketLoop].
    rewrite (readPacketStep_decode_error [] first _ H).
    now apply readPacketLoop_overlong. }
  split.
  { intros reads H. unfold minecraft.readPacket.
    now apply readPacketLoop_overlong_stream. }
  intros reads bytes tail Hall Hlen Hreads. unfold minecraft.readPacket.
  apply readPacketLoop_overlong_stream. cbn [app]. rewrite Hreads.
  now apply decodeLoop_too_long.
Qed.

(** C4, as the specification has it, fails: a six-byte length prefix makes
    the decoder fail as overlong, yet the reader continues with the bytes
    kept, takes the next read, and ends with the connection-closed error
    instead of the decoding failure. *)
Lemma reader_overlong_not_fatal :
  leb.decodeInt32 [128; 128; 128; 128; 128; 1] 0 = Err leb.Overlong
  /\ minecraft.readPacketStep [] (Some [128; 128; 128; 128; 128; 1])
     = minecraft.Continue [128; 128; 128; 128; 128; 1]
  /\ minecraft.readPacket [Some [128; 128; 128; 128; 128; 1]; Some [0; 0]]
     = Err (Error minecraft.CONNECTION_CLOSED)
  /\ minecraft.readPacket [Some [128; 128; 128; 128; 128; 1]; Some [0; 0]]
     <> Err (DecodeFailure leb.Overlong).
Proof. repeat split; try reflexivity. discriminate. Qed.

(** The same with the prefix delivered in pieces, a read without a value
    in between. *)
Lemma reader_overlong_in_pieces :
  minecraft.readPacket
    [Some [128; 128]; None; Some [128; 128; 128; 1]; Some [0]]
  = Err (Error minecraft.CONNECTION_CLOSED).
Proof. reflexivity. Qed.

(** ** SRV selection *)

Lemma fold_min_le (l : list Z) :
  forall a, fold_left Z.min l a <= a
            /\ (forall x, In x l -> fold_left Z.min l a <= x)
            /\ (fold_left Z.min l a = a \/ In (fold_left Z.min l a) l).
Proof.
  induction l as [| y l IH]; intros a; cbn [fold_left].
  - repeat split; [lia | intros x [] | now left].
  - destruct (IH (Z.min a y)) as (H1 & H2 & H3). repeat split.
    + lia.
    + intros x [<- | Hx]; [lia | now apply H2].
    + destruct H3 as [H3 | H3]; [| right; now right].
      rewrite H3. destruct (Z.min_spec a y) as [[_ ->] | [_ ->]];
        [now left | right; now left].
Qed.

Lemma minPriority_attained (first : srv.ParsedSrvRecord) others :
  exists record,
    In record (first :: others)
    /\ srv.priority record = srv.minPriorityOf first others.
Proof.
  unfold srv.minPriorityOf.
  destruct (fold_min_le (map srv.priority others) (srv.priority first))
    as (_ & _ & [H | H]).
  - exists first. split; [now left | now symmetry].
  - apply in_map_iff in H as (record & Hp & Hin).
    exists record. split; [now right | exact Hp].
Qed.

Lemma minPriority_least (first : srv.ParsedSrvRecord) others record :
  In record (first :: others) ->
  srv.minPriorityOf first others <= srv.priority record.
Proof.
  unfold srv.minPriorityOf.
  destruct (fold_min_le (map srv.priority others) (srv.priority first))
    as (H1 & H2 & _).
  intros [<- | Hin]; [exact H1 |]. apply H2. now apply in_map.
Qed.

Lemma candidates_spec (records : list srv.ParsedSrvRecord) record :
  In record (srv.candidatesOf records) ->
  In record records
  /\ (forall other, In other records ->
                    srv.priority record <= srv.priority other).
Proof.
  destruct records as [| first others]; [intros [] |].
  unfold srv.candidatesOf. intros H. apply filter_In in H as [Hin Hp].
  apply Z.eqb_eq in Hp. split; [exact Hin |].
  intros other Hother. rewrite Hp. now apply minPriority_least.
Qed.

Lemma candidates_nonempty (records : list srv.ParsedSrvRecord) :
  records <> [] -> srv.candidatesOf records <> [].
Proof.
  destruct records as [| first others]; [contradiction |]. intros _ Hnil.
  destruct (minPriority_attained first others) as (record & Hin & Hp).
  assert (In record (srv.candidatesOf (first :: others))) as Hc.
  { unfold srv.candidatesOf. apply filter_In. split; [exact Hin |].
    now apply Z.eqb_eq. }
  rewrite Hnil in Hc. destruct Hc.
Qed.

Lemma weightedWalk_member candidates :
  forall roll record,
    srv.weightedWalk roll candidates = Some record -> In record candidates.
Proof.
  induction candidates as [| c rest IH]; intros roll record H;
    [discriminate |].
  cbn [srv.weightedWalk] in H.
  destruct (Qle_bool (roll - inject_Z (srv.weight c)) 0).
  - injection H as <-. now left.
  - right. eapply IH; eauto.
Qed.

Lemma last_candidate {A} (l : list A) :
  l <> [] -> exists x, nth_error l (List.length l - 1) = Some x /\ In x l.
Proof.
  intros Hne.
  destruct (nth_error l (List.length l - 1)) as [x |] eqn:E.
  - exists x. split; [reflexivity |]. eapply nth_error_In; eauto.
  - apply nth_error_None in E. destruct l; [contradiction |].
    cbn [List.length] in E. lia.
Qed.

(** The selection on a non-empty list returns one of the candidates; it is
    the last one when the weighted walk selects nothing. *)
Lemma pickSrvRecord_candidate
  (records : list srv.ParsedSrvRecord) (random : Q) :
  records <> [] ->
  exists record,
    srv.pickSrvRecord records random = Some record
    /\ In record (srv.candidatesOf records)
    /\ (0 < srv.totalWeightOf (srv.candidatesOf records) ->
        srv.weightedWalk
          (random * inject_Z (srv.totalWeightOf (srv.candidatesOf records)))
          (srv.candidatesOf records) = None ->
        nth_error (srv.candidatesOf records)
                  (List.length (srv.candidatesOf records) - 1)
        = Some record).
Proof.
  intros Hne. pose proof (candidates_nonempty records Hne) as Hc.
  unfold srv.pickSrvRecord.
  destruct records as [| first others]; [contradiction |].
  set (candidates := srv.candidatesOf (first :: others)) in *.
  destruct (srv.totalWeightOf candidates <=? 0) eqn:Et.
  - destruct candidates as [| c rest] eqn:Ec; [contradiction |].
    exists c. cbn [nth_error]. split; [reflexivity |].
    split; [now left |]. apply Z.leb_le in Et. intros Hpos. lia.
  - destruct (srv.weightedWalk _ candidates) as [record |] eqn:Ew.
    + exists record. split; [reflexivity |].
      split; [eapply weightedWalk_member; eauto | discriminate].
    + destruct (last_candidate candidates Hc) as (x & Hx & Hin).
      exists x. split; [exact Hx |]. split; [exact Hin | auto].
Qed.

(** C10. For a non-empty list of records the selection returns a record,
    never the no-record result; the record is one of the list and has the
    least priority of the list; and when the weighted walk ends without
    selecting, the record returned is the last candidate. *)
Theorem pickSrvRecord_returns_member
  (records : list srv.ParsedSrvRecord) (random : Q) :
  records <> [] ->
  exists record,
    srv.pickSrvRecord records random = Some record
    /\ In record records
    /\ (forall other, In other records ->
                      srv.priority record <= srv.priority other)
    /\ (0 < srv.totalWeightOf (srv.candidatesOf records) ->
        srv.weightedWalk
          (random * inject_Z (srv.totalWeightOf (srv.candidatesOf records)))
          (srv.candidatesOf records) = None ->
        nth_error (srv.candidatesOf records)
                  (List.length (srv.candidatesOf records) - 1)
        = Some record).
Proof.
  intros Hne.
  destruct (pickSrvRecord_candidate records random Hne)
    as (record & Hpick & Hin & Hlast).
  destruct (candidates_spec records record Hin) as [Hmember Hleast].
  exists record. split; [exact Hpick |]. split; [exact Hmember |].
  split; [exact Hleast | exact Hlast].
Qed.

Lemma pickSrvRecord_returns_member_witness :
  [srv.mkRecord 5 1 25567 (lit "c"); srv.mkRecord 0 0 25565 (lit "a");
   srv.mkRecord 0 100 25566 (lit "b")] <> []
  /\ exists record,
      srv.pickSrvRecord
        [srv.mkRecord 5 1 25567 (lit "c"); srv.mkRecord 0 0 25565 (lit "a");
         srv.mkRecord 0 100 25566 (lit "b")] (1 # 2)
      = Some record
      /\ In record
            [srv.mkRecord 5 1 25567 (lit "c"); srv.mkRecord 0 0 25565 (lit "a");
             srv.mkRecord 0 100 25566 (lit "b")].
Proof.
  split; [discriminate |].
  destruct (pickSrvRecord_returns_member
              [srv.mkRecord 5 1 25567 (lit "c");
               srv.mkRecord 0 0 25565 (lit "a");
               srv.mkRecord 0 100 25566 (lit "b")] (1 # 2))
    as (record & Hpick & Hin & _); [discriminate |].
  exists record. split; assumption.
Defined.

Lemma totalWeight_from (candidates : list srv.ParsedSrvRecord) :
  forall a,
    fold_left (fun sum record => sum + srv.weight record) candidates a
    = a + srv.totalWeightOf candidates.
Proof.
  unfold srv.totalWeightOf.
  induction candidates as [| c rest IH]; intros a; cbn [fold_left]; [lia |].
  rewrite (IH (a + srv.weight c)), (IH (0 + srv.weight c)). lia.
Qed.

Lemma totalWeight_cons c (rest : list srv.ParsedSrvRecord) :
  srv.totalWeightOf (c :: rest) = srv.weight c + srv.totalWeightOf rest.
Proof.
  unfold srv.totalWeightOf at 1. cbn [fold_left]. apply totalWeight_from.
Qed.


(** ** Zero weights in binary64 *)











(** ** The SRV resolver *)

Lemma parseSrvRecord_port (answer : Json) (record : srv.ParsedSrvRecord) :
  srv.parseSrvRecord answer = Ok (Some record) ->
  1 <= srv.port record <= 65535 /\ srv.target record <> [] /\ 0 <= srv.weight record.
Proof.
  unfold srv.parseSrvRecord. intros H.
  destruct (getProp answer "type") as [[type |] | e]; cbn [bind] in H;
    try discriminate.
  destruct type as [| b | n | s | items | fields]; try discriminate.
  destruct (negb (Qeq_bool n (inject_Z srv.SRV_RECORD_TYPE)));
    [discriminate |].
  destruct (getProp answer "data") as [[data |] | e]; cbn [bind] in H;
    try discriminate.
  destruct data as [| b | m | data | items | fields]; try discriminate.
  destruct (srv.parseIntOpt _) as [priority |]; [| discriminate].
  destruct (srv.parseIntOpt _) as [weight |]; [| discriminate].
  destruct (srv.parseIntOpt _) as [port |]; [| discriminate].
  destruct (option_map _ _) as [[| c target] |]; try discriminate.
  destruct ((port <? 1) || (port >? 65535)) eqn:E; [discriminate |].
  injection H as <-. cbn [srv.port srv.target srv.weight].
  apply orb_false_elim in E as [E1 E2].
  apply Z.ltb_ge in E1. rewrite Z.gtb_ltb in E2. apply Z.ltb_ge in E2.
  repeat split; try lia. discriminate.
Qed.

Lemma mapResult_members (items : list Json) :
  forall parsed record,
    srv.mapResult srv.parseSrvRecord items = Ok parsed ->
    In record (srv.nonNull parsed) ->
    exists answer, In answer items
                   /\ srv.parseSrvRecord answer = Ok (Some record).
Proof.
  induction items as [| answer items IH]; intros parsed record H Hin.
  - injection H as <-. destruct Hin.
  - cbn [srv.mapResult] in H.
    destruct (srv.parseSrvRecord answer) as [first | e] eqn:Ea;
      cbn [bind] in H; [| discriminate].
    destruct (srv.mapResult srv.parseSrvRecord items) as [others | e] eqn:Eo;
      cbn [bind] in H; [| discriminate].
    injection H as <-.
    destruct first as [r |]; cbn [srv.nonNull] in Hin.
    + destruct Hin as [<- | Hin].
      * exists answer. split; [now left | exact Ea].
      * destruct (IH others record eq_refl Hin) as (a & Ha & Hp).
        exists a. split; [now right | exact Hp].
    + destruct (IH others record eq_refl Hin) as (a & Ha & Hp).
      exists a. split; [now right | exact Hp].
Qed.

Lemma parsedRecords_valid (result : Json) records record :
  srv.parsedRecords result = Ok records ->
  In record records ->
  1 <= srv.port record <= 65535 /\ srv.target record <> [] /\ 0 <= srv.weight record.
Proof.
  unfold srv.parsedRecords. intros H Hin.
  destruct (getProp result "Answer") as [answer | e]; cbn [bind] in H;
    [| discriminate].
  set (answers := match answer with
                  | Some JNull | None => JArray []
                  | Some a => a
                  end) in H.
  destruct answers as [| b | n | s | items | fields]; try discriminate.
  destruct (srv.mapResult srv.parseSrvRecord items) as [parsed | e] eqn:Em;
    cbn [bind] in H; [| discriminate].
  injection H as <-.
  destruct (mapResult_members items parsed record Em Hin) as (a & _ & Hp).
  eapply parseSrvRecord_port; eauto.
Qed.

(** A target is returned only for a successful response whose body gives
    at least one valid record, and it is the target and port of one of
    them. *)
Lemma resolveMinecraftSrv_some hostname doh random target :
  srv.resolveMinecraftSrv hostname doh random = Some target ->
  exists result records record,
    doh (srv.buildSrvQueryUrl hostname) = Responded true (Ok result)
    /\ srv.parsedRecords result = Ok records
    /\ In record records
    /\ target = srv.mkTarget (srv.target record) (srv.port record).
Proof.
  unfold srv.resolveMinecraftSrv, srv.resolveBody. intros H.
  destruct (doh (srv.buildSrvQueryUrl hostname)) as [[|] | ok json];
    try discriminate.
  destruct ok; cbn [negb] in H; [| discriminate].
  destruct json as [result | e]; cbn [bind try_catch] in H; [| discriminate].
  destruct (srv.parsedRecords result) as [records | e] eqn:Ep;
    cbn [bind] in H; [| discriminate].
  destruct (srv.pickSrvRecord records random) as [selection |] eqn:Es;
    cbn in H; [| discriminate].
  injection H as <-.
  assert (Hin : In selection records).
  { destruct records as [| r rs]; [discriminate |].
    destruct (pickSrvRecord_candidate (r :: rs) random
                ltac:(discriminate)) as (record & Hpick & Hin & _).
    rewrite Hpick in Es. injection Es as <-.
    now apply candidates_spec in Hin. }
  exists result, records, selection. auto.
Qed.

(** C6. The resolver is a total function with the "no target" result for
    every failure of the exchange: a rejected request (network error, or
    the abort at the timeout), a response whose status is not a success, a
    body that is not JSON, a body of the wrong shape (any exception of the
    body of [try]), and an answer set that is empty or holds no valid
    record. *)
Theorem resolveMinecraftSrv_absorbs_failures
  (hostname : JsString) (doh : srv.SrvQuery -> HttpExchange) (random : Q) :
  (forall why,
      doh (srv.buildSrvQueryUrl hostname) = FetchRejected why ->
      srv.resolveMinecraftSrv hostname doh random = None)
  /\ (forall json,
         doh (srv.buildSrvQueryUrl hostname) = Responded false json ->
         srv.resolveMinecraftSrv hostname doh random = None)
  /\ (forall e,
         doh (srv.buildSrvQueryUrl hostname) = Responded true (Err e) ->
         srv.resolveMinecraftSrv hostname doh random = None)
  /\ (forall result e,
         doh (srv.buildSrvQueryUrl hostname) = Responded true (Ok result) ->
         srv.parsedRecords result = Err e ->
         srv.resolveMinecraftSrv hostname doh random = None)
  /\ (forall result,
         doh (srv.buildSrvQueryUrl hostname) = Responded true (Ok result) ->
         srv.parsedRecords result = Ok [] ->
         srv.resolveMinecraftSrv hostname doh random = None)
  /\ (forall e,
         srv.resolveBody hostname doh random = Err e ->
         srv.resolveMinecraftSrv hostname doh random = None).
Proof.
  unfold srv.resolveMinecraftSrv, srv.resolveBody.
  repeat split.
  - intros why ->. now destruct why.
  - now intros json ->.
  - now intros e ->.
  - intros result e -> Hp. cbn [negb bind]. now rewrite Hp.
  - intros result -> Hp. cbn [negb bind]. now rewrite Hp.
  - now intros e ->.
Qed.

(** The shapes of an answer set that yield no record. *)
Example no_answer_member :
  srv.parsedRecords (JObject [(lit "Status", JNumber 3)]) = Ok [].
Proof. reflexivity. Qed.

Example empty_answer_set :
  srv.parsedRecords
    (JObject [(lit "Status", JNumber 0); (lit "Answer", JArray [])]) = Ok [].
Proof. reflexivity. Qed.

Example invalid_answers_discarded :
  srv.parsedRecords
    (JObject
       [(lit "Answer",
         JArray
           [JObject [(lit "type", JNumber 5);
                     (lit "data", JString (lit "alias.example.com."))];
            JObject [(lit "type", JNumber 33);
                     (lit "data", JString (lit "0 5 70000 big.example.com."))];
            JObject [(lit "type", JNumber 33);
                     (lit "data", JString (lit "0 5 25565"))]])])
  = Ok [].
Proof. reflexivity. Qed.

Example null_body_throws : srv.parsedRecords JNull = Err TypeError.
Proof. reflexivity. Qed.

Example answer_not_an_array_throws :
  srv.parsedRecords (JObject [(lit "Answer", JString (lit "none"))])
  = Err TypeError.
Proof. reflexivity. Qed.

(** ** Timeout, release and close *)

Lemma finallyBlock_always (t : race.Transport) :
  race.finallyBlock t
  = [minecraft.ReleaseWriter; minecraft.ReleaseReader; minecraft.Close].
Proof.
  unfold race.finallyBlock, race.releaseLock.
  destruct (race.releaseWriterThrows t), (race.releaseReaderThrows t);
    reflexivity.
Qed.

Lemma closes_app (a b : list minecraft.SocketAction) :
  closes (a ++ b) = (closes a + closes b)%nat.
Proof. unfold closes. now rewrite filter_app, length_app. Qed.

Lemma onlyWrites_app (a b : list minecraft.SocketAction) :
  onlyWrites (a ++ b) = onlyWrites a && onlyWrites b.
Proof. apply forallb_app. Qed.

Lemma onlyWrites_quiet (l : list minecraft.SocketAction) :
  onlyWrites l = true -> filter isClose l = [] /\ filter isRelease l = [].
Proof.
  induction l as [| a l IH]; [easy |].
  cbn [onlyWrites forallb]. fold (onlyWrites l).
  destruct a; try discriminate. cbn. exact IH.
Qed.

Lemma onlyWrites_closes (l : list minecraft.SocketAction) :
  onlyWrites l = true -> closes l = 0%nat.
Proof.
  intros H. unfold closes. now rewrite (proj1 (onlyWrites_quiet l H)).
Qed.

Lemma concat_firstn_skipn {A} (n : nat) (l : list (list A)) :
  List.concat (firstn n l) ++ List.concat (skipn n l) = List.concat l.
Proof. now rewrite <- concat_app, firstn_skipn. Qed.

Lemma concat_repeat_nil {A} (k : nat) :
  List.concat (repeat (@nil A) k) = [].
Proof. induction k as [| k IH]; [reflexivity | exact IH]. Qed.

Lemma onlyWrites_parts (n : nat) (l : list (list minecraft.SocketAction)) :
  onlyWrites (List.concat l) = true ->
  onlyWrites (List.concat (firstn n l)) = true
  /\ onlyWrites (List.concat (skipn n l)) = true.
Proof.
  rewrite <- (concat_firstn_skipn n l), onlyWrites_app.
  apply andb_prop.
Qed.

(** The reads of [readPacket] do nothing to the socket; when the loop
    ends, the [finally] block follows. *)
Lemma readGroups_shape (t : race.Transport) :
  forall reads buffer,
  exists k,
    match snd (race.readGroups t buffer reads) with
    | race.Hangs => fst (race.readGroups t buffer reads) = repeat [] k
    | race.Finished _ =>
        fst (race.readGroups t buffer reads)
        = repeat [] k ++ [race.finallyBlock t]
    end.
Proof.
  induction reads as [| value reads IH]; intros buffer;
    cbn [race.readGroups].
  - exists 0%nat. destruct (race.readsEnd t); reflexivity.
  - destruct (minecraft.readPacketStep buffer value) as [buffer' | packet].
    + destruct (IH buffer') as [k Hk]. exists (S k).
      destruct (race.readGroups t buffer' reads) as [groups ending].
      cbn [fst snd] in *. destruct ending; rewrite Hk; reflexivity.
    + exists 0%nat. reflexivity.
Qed.


Lemma readGroups_done (t : race.Transport) :
  race.readsEnd t = race.Done ->
  forall reads buffer,
  exists k,
    race.readGroups t buffer reads
    = (repeat [] k ++ [race.finallyBlock t],
       race.Finished
         (packet <- minecraft.readPacketLoop buffer reads;;
          minecraft.parseStatusPacket packet)).
Proof.
  intros Hdone.
  induction reads as [| value reads IH]; intros buffer;
    cbn [race.readGroups minecraft.readPacketLoop].
  - exists 0%nat. rewrite Hdone. reflexivity.
  - destruct (minecraft.readPacketStep buffer value) as [buffer' | packet].
    + destruct (IH buffer') as [k Hk]. exists (S k).
      rewrite Hk. reflexivity.
    + exists 0%nat. reflexivity.
Qed.

(** The handshake is what the function writes before its first [await],
    whatever the transport does afterwards. *)
Lemma pingPromise_before (opts : minecraft.PingOptions) (t : race.Transport)
  (handshake : Buffer) :
  minecraft.buildHandshakePacket (minecraft.serverAddress opts)
    (minecraft.port opts)
    (minecraft.orDefault (minecraft.protocolVersion opts)
                         minecraft.DEFAULT_PROTOCOL_VERSION)
  = Ok handshake ->
  race.before (race.pingPromise opts t) = [minecraft.Write handshake].
Proof.
  intros H. unfold race.pingPromise. cbv zeta. rewrite H.
  destruct (race.write1 t); try reflexivity.
  destruct (race.write2 t); try reflexivity.
  destruct (race.readGroups t [] (race.reads t)). reflexivity.
Qed.

(** The shape of a run of the function: writes only, and the [finally]
    block last if it ends. *)
Lemma pingPromise_shape (opts : minecraft.PingOptions) (t : race.Transport) :
  match race.ending (race.pingPromise opts t) with
  | race.Hangs =>
      onlyWrites (race.before (race.pingPromise opts t)) = true
      /\ onlyWrites (List.concat (race.after (race.pingPromise opts t)))
         = true
  | race.Finished _ =>
      (race.after (race.pingPromise opts t) = []
       /\ race.before (race.pingPromise opts t) = race.finallyBlock t)
      \/ (exists init,
             race.after (race.pingPromise opts t)
             = init ++ [race.finallyBlock t]
             /\ onlyWrites (race.before (race.pingPromise opts t)) = true
             /\ onlyWrites (List.concat init) = true)
  end.
Proof.
  unfold race.pingPromise. cbv zeta.
  destruct (minecraft.buildHandshakePacket _ _ _) as [handshake | e];
    [| left; split; reflexivity].
  destruct (race.write1 t) as [| e |].
  - destruct (race.write2 t) as [| e |].
    + destruct (readGroups_shape t (race.reads t) []) as [k Hk].
      destruct (race.readGroups t [] (race.reads t)) as [groups ending].
      cbn [fst snd] in Hk.
      destruct ending as [result |]; cbn [race.ending race.before race.after];
        rewrite Hk.
      * right.
        exists ([minecraft.Write minecraft.buildStatusRequestPacket] :: []
                  :: repeat [] k).
        split; [reflexivity |]. split; [reflexivity |].
        cbn [List.concat app]. now rewrite concat_repeat_nil.
      * split; [reflexivity |].
        cbn [List.concat app]. now rewrite concat_repeat_nil.
    + right.
      exists [[minecraft.Write minecraft.buildStatusRequestPacket]].
      repeat split; reflexivity.
    + split; reflexivity.
  - right. exists []. repeat split; reflexivity.
  - split; reflexivity.
Qed.

Lemma getServerStatus_unfold (opts : minecraft.PingOptions)
  (t : race.Transport) (timer : nat) :
  race.getServerStatus opts t timer
  = (minecraft.Connect (minecraft.hostname opts) (minecraft.port opts)
       :: fst (race.withTimeout (race.pingPromise opts t) timer
                 [minecraft.Close]),
     snd (race.withTimeout (race.pingPromise opts t) timer
            [minecraft.Close])).
Proof.
  unfold race.getServerStatus.
  now destruct (race.withTimeout _ timer _).
Qed.


(** On a transport that cooperates, and with a timer that does not fire
    before the run ends, the run is the one [minecraft.getServerStatus]
    describes. *)
Lemma getServerStatus_cooperative (opts : minecraft.PingOptions)
  (reads : list (option Buffer)) (timer : nat) :
  race.timedOut (race.pingPromise opts (cooperative reads)) timer = false ->
  race.getServerStatus opts (cooperative reads) timer
  = minecraft.getServerStatus opts reads.
Proof.
  intros Htimer.
  rewrite getServerStatus_unfold. unfold race.withTimeout.
  rewrite Htimer. cbn [fst snd].
  unfold race.pingPromise, minecraft.getServerStatus. cbv zeta.
  destruct (minecraft.buildHandshakePacket _ _ _) as [handshake | e].
  - cbn [cooperative race.write1 race.write2 race.reads].
    destruct (readGroups_done (cooperative reads) eq_refl reads [])
      as [k Hk].
    rewrite Hk.
    cbn [race.before race.after race.ending List.concat app].
    rewrite concat_app, concat_repeat_nil. cbn [List.concat app].
    rewrite app_nil_r, finallyBlock_always. reflexivity.
  - cbn [race.before race.after race.ending List.concat app].
    rewrite app_nil_r, finallyBlock_always. reflexivity.
Qed.

(** C9, as the code has it. For a protocol version of 32 bits, every
    transport and every moment at which the timer may fire: the [finally]
    block releases the writer, releases the reader and closes the socket,
    whatever the releases throw. When the timer fires first the call fails
    with the error [ping timed out] and the socket is closed by the timer;
    if the abandoned exchange never settles that is the only close and no
    lock is released; if it settles later its [finally] block releases
    both locks and closes the socket a second time. When the exchange
    settles first the call ends as the exchange does, with writes only
    before the release of the writer, the release of the reader and one
    close, in that order. *)
Theorem ping_timeout_and_close
  (opts : minecraft.PingOptions) (t : race.Transport) (timer : nat) :
  - 2 ^ 31
  <= minecraft.orDefault (minecraft.protocolVersion opts)
       minecraft.DEFAULT_PROTOCOL_VERSION
  < 2 ^ 31 ->
  let body := race.pingPromise opts t in
  let outcome := race.getServerStatus opts t timer in
  let opened :=
    minecraft.Connect (minecraft.hostname opts) (minecraft.port opts) in
  let released :=
    [minecraft.ReleaseWriter; minecraft.ReleaseReader; minecraft.Close] in
  race.finallyBlock t = released
  /\ (race.timedOut body timer = true ->
      snd outcome = Err (Error race.TIMED_OUT)
      /\ (1 <= closes (fst outcome))%nat)
  /\ (race.timedOut body timer = true ->
      race.ending body = race.Hangs ->
      closes (fst outcome) = 1%nat
      /\ filter isRelease (fst outcome) = []
      /\ exists early late,
          fst outcome = opened :: early ++ [minecraft.Close] ++ late
          /\ onlyWrites early = true /\ onlyWrites late = true)
  /\ (forall settled,
         race.timedOut body timer = true ->
         race.ending body = race.Finished settled ->
         closes (fst outcome) = 2%nat
         /\ filter isRelease (fst outcome)
            = [minecraft.ReleaseWriter; minecraft.ReleaseReader]
         /\ exists early late,
             fst outcome
             = opened :: early ++ [minecraft.Close] ++ late ++ released
             /\ onlyWrites early = true /\ onlyWrites late = true)
  /\ (race.timedOut body timer = false ->
      exists settled writes,
        race.ending body = race.Finished settled
        /\ snd outcome = settled
        /\ closes (fst outcome) = 1%nat
        /\ fst outcome = opened :: writes ++ released
        /\ onlyWrites writes = true).
Proof.
  intros _ body outcome opened released.
  assert (Hhang :
            race.timedOut body timer = true ->
            race.ending body = race.Hangs ->
            exists early late,
              fst outcome = opened :: early ++ [minecraft.Close] ++ late
              /\ onlyWrites early = true /\ onlyWrites late = true).
  { intros Htimer Hend. subst outcome.
    rewrite getServerStatus_unfold. unfold race.withTimeout.
    fold body. rewrite Htimer. cbn [fst].
    pose proof (pingPromise_shape opts t) as Hshape. fold body in Hshape.
    rewrite Hend in Hshape. destruct Hshape as [Hb Ha].
    destruct (onlyWrites_parts timer _ Ha) as [H1 H2].
    exists (race.before body ++ List.concat (firstn timer (race.after body))),
      (List.concat (skipn timer (race.after body))).
    split; [now rewrite <- app_assoc |].
    split; [| exact H2]. now rewrite onlyWrites_app, Hb, H1. }
  assert (Hlate :
            forall settled,
              race.timedOut body timer = true ->
              race.ending body = race.Finished settled ->
              exists early late,
                fst outcome
                = opened :: early ++ [minecraft.Close] ++ late ++ released
                /\ onlyWrites early = true /\ onlyWrites late = true).
  { intros settled Htimer Hend. subst outcome.
    rewrite getServerStatus_unfold. unfold race.withTimeout.
    fold body. rewrite Htimer. cbn [fst].
    pose proof (pingPromise_shape opts t) as Hshape. fold body in Hshape.
    rewrite Hend in Hshape.
    unfold race.timedOut in Htimer. rewrite Hend in Htimer.
    apply Nat.ltb_lt in Htimer.
    destruct Hshape as [[Hnil _] | (init & Hafter & Hb & Hi)].
    { rewrite Hnil in Htimer. cbn in Htimer. lia. }
    rewrite Hafter in *. rewrite length_app in Htimer. cbn in Htimer.
    rewrite firstn_app, skipn_app.
    replace (timer - List.length init)%nat with 0%nat by lia.
    cbn [firstn skipn]. rewrite app_nil_r, concat_app.
    cbn [List.concat]. rewrite app_nil_r, finallyBlock_always.
    destruct (onlyWrites_parts timer _ Hi) as [H1 H2].
    exists (race.before body ++ List.concat (firstn timer init)),
      (List.concat (skipn timer init)).
    split; [now rewrite <- !app_assoc |].
    split; [| exact H2]. now rewrite onlyWrites_app, Hb, H1. }
  assert (Hplain :
            race.timedOut body timer = false ->
            exists settled writes,
              race.ending body = race.Finished settled
              /\ snd outcome = settled
              /\ fst outcome = opened :: writes ++ released
              /\ onlyWrites writes = true).
  { intros Htimer. subst outcome.
    rewrite getServerStatus_unfold. unfold race.withTimeout.
    fold body. rewrite Htimer. cbn [fst snd].
    pose proof (pingPromise_shape opts t) as Hshape. fold body in Hshape.
    unfold race.timedOut in Htimer.
    destruct (race.ending body) as [settled |]; [| discriminate].
    exists settled.
    destruct Hshape as [[Hnil Hb] | (init & Hafter & Hb & Hi)].
    - exists []. rewrite Hnil, Hb, finallyBlock_always.
      repeat split; reflexivity.
    - exists (race.before body ++ List.concat init).
      rewrite Hafter, concat_app. cbn [List.concat].
      rewrite app_nil_r, finallyBlock_always.
      split; [reflexivity |]. split; [reflexivity |].
      split; [now rewrite <- app_assoc |].
      now rewrite onlyWrites_app, Hb, Hi. }
  split; [apply finallyBlock_always |].
  split.
  { intros Htimer. split.
    - subst outcome. rewrite getServerStatus_unfold.
      unfold race.withTimeout. fold body. now rewrite Htimer.
    - destruct (race.ending body) as [settled |] eqn:Hend.
      + destruct (Hlate settled Htimer eq_refl) as (early & late & -> & _).
        change (opened :: early ++ [minecraft.Close] ++ late ++ released)
          with ([opened] ++ early ++ [minecraft.Close] ++ late ++ released).
        rewrite !closes_app.
        change (closes [minecraft.Close]) with 1%nat. lia.
      + destruct (Hhang Htimer eq_refl) as (early & late & -> & _).
        change (opened :: early ++ [minecraft.Close] ++ late)
          with ([opened] ++ early ++ [minecraft.Close] ++ late).
        rewrite !closes_app.
        change (closes [minecraft.Close]) with 1%nat. lia. }
  split.
  { intros Htimer Hend.
    destruct (Hhang Htimer Hend) as (early & late & Htrace & He & Hl).
    split; [| split; [| eauto]]; rewrite Htrace.
    - change (opened :: early ++ [minecraft.Close] ++ late)
        with ([opened] ++ early ++ [minecraft.Close] ++ late).
      rewrite !closes_app, (onlyWrites_closes _ He),
        (onlyWrites_closes _ Hl). reflexivity.
    - change (opened :: early ++ [minecraft.Close] ++ late)
        with ([opened] ++ early ++ [minecraft.Close] ++ late).
      rewrite !filter_app, (proj2 (onlyWrites_quiet _ He)),
        (proj2 (onlyWrites_quiet _ Hl)). reflexivity. }
  split.
  { intros settled Htimer Hend.
    destruct (Hlate settled Htimer Hend) as (early & late & Htrace & He & Hl).
    split; [| split; [| eauto]]; rewrite Htrace.
    - change (opened :: early ++ [minecraft.Close] ++ late ++ released)
        with ([opened] ++ early ++ [minecraft.Close] ++ late ++ released).
      rewrite !closes_app, (onlyWrites_closes _ He),
        (onlyWrites_closes _ Hl). reflexivity.
    - change (opened :: early ++ [minecraft.Close] ++ late ++ released)
        with ([opened] ++ early ++ [minecraft.Close] ++ late ++ released).
      rewrite !filter_app, (proj2 (onlyWrites_quiet _ He)),
        (proj2 (onlyWrites_quiet _ Hl)). reflexivity. }
  intros Htimer.
  destruct (Hplain Htimer) as (settled & writes & Hend & Hres & Htrace & Hw).
  exists settled, writes.
  split; [exact Hend |]. split; [exact Hres |].
  split; [| split; [exact Htrace | exact Hw]].
  rewrite Htrace.
  change (opened :: writes ++ released) with ([opened] ++ writes ++ released).
  rewrite !closes_app, (onlyWrites_closes _ Hw). reflexivity.
Qed.

Lemma ping_timeout_and_close_witness :
  - 2 ^ 31 <= 765 < 2 ^ 31
  /\ race.timedOut (race.pingPromise examplePing stalled) 0 = true
  /\ snd (race.getServerStatus examplePing stalled 0)
     = Err (Error race.TIMED_OUT)
  /\ closes (fst (race.getServerStatus examplePing stalled 0)) = 1%nat
  /\ filter isRelease (fst (race.getServerStatus examplePing stalled 0)) = [].
Proof.
  split; [lia |]. split; [reflexivity |].
  destruct (ping_timeout_and_close examplePing stalled 0)
    as (_ & Hfail & Hhang & _);
    [change (- 2 ^ 31 <= 765 < 2 ^ 31); lia |].
  split; [apply Hfail; reflexivity |].
  destruct Hhang as (Hcloses & Hreleases & _); [reflexivity .. |].
  split; assumption.
Defined.

(** C9, as the specification has it, fails for the count of closes: when
    the timer fires while a read is pending and the read is rejected
    afterwards, the timer closes the socket, the call fails with the
    timeout error, and the [finally] block of the abandoned exchange then
    releases both locks and closes the socket again. *)
Lemma ping_timeout_closes_twice :
  race.timedOut (race.pingPromise examplePing silentThenRejected) 2 = true
  /\ (exists handshake,
         race.getServerStatus examplePing silentThenRejected 2
         = ([minecraft.Connect (lit "a.b") 25565;
             minecraft.Write handshake;
             minecraft.Write minecraft.buildStatusRequestPacket;
             minecraft.Close;
             minecraft.ReleaseWriter; minecraft.ReleaseReader;
             minecraft.Close],
            Err (Error race.TIMED_OUT)))
  /\ closes (fst (race.getServerStatus examplePing silentThenRejected 2))
     = 2%nat
  /\ closes (fst (race.getServerStatus examplePing silentThenRejected 2))
     <> 1%nat.
Proof.
  split; [reflexivity |].
  split; [eexists; reflexivity |].
  split; [reflexivity | discriminate].
Qed.

(** Each of the other paths is taken: a run that ends before the timer
    fires, and a run on which nothing ever settles. *)
Lemma ping_paths_taken :
  race.getServerStatus examplePing
    (cooperative [Some [4]; None; Some [0; 2; 123]; Some [125]]) 6
  = minecraft.getServerStatus examplePing
      [Some [4]; None; Some [0; 2; 123]; Some [125]]
  /\ snd (race.getServerStatus examplePing
            (cooperative [Some [4]; None; Some [0; 2; 123]; Some [125]]) 6)
     = Ok [123; 125]
  /\ closes (fst (race.getServerStatus examplePing stalled 7)) = 1%nat.
Proof. repeat split; reflexivity. Qed.

(** Whatever the transport does and whenever the timer fires, the socket
    is opened first and the handshake is the first thing written to it. *)
Lemma getServerStatus_handshake_first (opts : minecraft.PingOptions)
  (t : race.Transport) (timer : nat) (handshake : Buffer) :
  minecraft.buildHandshakePacket (minecraft.serverAddress opts)
    (minecraft.port opts)
    (minecraft.orDefault (minecraft.protocolVersion opts)
                         minecraft.DEFAULT_PROTOCOL_VERSION)
  = Ok handshake ->
  exists rest,
    fst (race.getServerStatus opts t timer)
    = minecraft.Connect (minecraft.hostname opts) (minecraft.port opts)
        :: minecraft.Write handshake :: rest.
Proof.
  intros H. rewrite getServerStatus_unfold. cbn [fst].
  unfold race.withTimeout. rewrite (pingPromise_before opts t handshake H).
  destruct (race.timedOut _ timer); cbn [fst app]; eexists; reflexivity.
Qed.

(** ** The handshake after an SRV redirect *)

Lemma takeVarInt_encodeVarInt (v : Z) (tail : Buffer) :
  takeVarInt (minecraft.encodeVarInt v ++ tail)
  = Some (leb.toInt32 (leb.toUint32 v), tail).
Proof.
  unfold takeVarInt, minecraft.encodeVarInt, leb.decodeInt32, leb.encodeInt32.
  change (Z.to_nat 0) with O. cbn [skipn].
  rewrite decodeLoop_encodeLoop;
    [| discriminate | apply toUint32_fuel | lia].
  cbn [leb.value leb.nextIndex].
  rewrite Z.shiftl_0_r, Z.lor_0_l. f_equal. f_equal.
  unfold blen. rewrite Z.add_0_l, Nat2Z.id.
  rewrite skipn_app, Nat.sub_diag, skipn_all. reflexivity.
Qed.

Lemma writeUInt16BE_bytes (port : Z) :
  0 <= port <= 65535 ->
  exists high low,
    minecraft.writeUInt16BE port = Ok [high; low] /\ 256 * high + low = port.
Proof.
  intros Hp. unfold minecraft.writeUInt16BE.
  destruct ((0 <=? port) && (port <=? 65535)) eqn:E.
  - exists (Z.shiftr port 8), (Z.land port 255). split; [reflexivity |].
    rewrite Z.shiftr_div_pow2 by lia.
    change 255 with (Z.ones 8). rewrite Z.land_ones by lia.
    change (2 ^ 8) with 256. Z.to_euclidean_division_equations; lia.
  - apply andb_false_iff in E as [E | E];
      [apply Z.leb_gt in E | apply Z.leb_gt in E]; lia.
Qed.

(** The address and port fields of a handshake packet are the UTF-8 of
    the [serverAddress] and the [port] it was built with. *)
Lemma handshakeFields_build (serverAddress : JsString) (port version : Z) :
  0 <= port <= 65535 ->
  blen (utf8 serverAddress) < 2 ^ 31 ->
  exists packet,
    minecraft.buildHandshakePacket serverAddress port version = Ok packet
    /\ handshakeFields packet
       = Some (mkFields (leb.toInt32 (leb.toUint32 version))
                        (utf8 serverAddress) port 1).
Proof.
  intros Hport Hlen. unfold minecraft.buildHandshakePacket.
  destruct (writeUInt16BE_bytes port Hport) as (high & low & Hw & Hval).
  rewrite Hw. cbn [bind]. eexists. split; [reflexivity |].
  unfold handshakeFields, minecraft.buildPacket, minecraft.encodeString.
  cbv zeta.
  rewrite !takeVarInt_encodeVarInt. rewrite <- app_assoc.
  rewrite takeVarInt_encodeVarInt.
  rewrite toInt32_toUint32 by (pose proof (blen_nonneg (utf8 serverAddress)); lia).
  unfold blen. rewrite Nat2Z.id.
  rewrite firstn_app, Nat.sub_diag, firstn_all. cbn [firstn]. rewrite app_nil_r.
  rewrite skipn_app, Nat.sub_diag, skipn_all. cbn [skipn app].
  change (takeVarInt (minecraft.encodeVarInt minecraft.NEXT_STATE_STATUS))
    with (Some (1, @nil Z)).
  now rewrite Hval.
Qed.

Lemma trimStart_head (s : JsString) c rest :
  trimStart s = c :: rest -> isWhiteSpace c = false.
Proof.
  induction s as [| x s IH]; cbn [trimStart]; [discriminate |].
  destruct (isWhiteSpace x) eqn:E; [exact IH |].
  intros H. injection H as <- _. exact E.
Qed.

Lemma trimStart_nil (s : JsString) :
  trimStart s = [] -> forall c, In c s -> isWhiteSpace c = true.
Proof.
  induction s as [| x s IH]; cbn [trimStart]; [intros _ c [] |].
  destruct (isWhiteSpace x) eqn:E; [| discriminate].
  intros H c [<- | Hin]; [exact E | now apply IH].
Qed.

Lemma blank_trimStart (s : JsString) :
  (blen (trim s) =? 0) = true -> trimStart s = [].
Proof.
  intros H. apply Z.eqb_eq in H. unfold blen in H.
  assert (Ht : trim s = []) by (destruct (trim s); [reflexivity | discriminate]).
  unfold trim, trimEnd in Ht.
  apply (f_equal (@rev Z)) in Ht. rewrite rev_involutive in Ht. cbn [rev] in Ht.
  destruct (trimStart s) as [| c rest] eqn:E; [reflexivity |].
  pose proof (trimStart_head s c rest E) as Hc.
  pose proof (trimStart_nil _ Ht c) as Hw.
  rewrite Hw in Hc; [discriminate |]. apply in_rev. rewrite rev_involutive.
  now left.
Qed.

(** A port parameter that is blank and accepted is absent or empty, and
    the requested port is then the default one. *)
Lemma blank_port_default (requestedPort : option JsString) (parsedPort : Z) :
  worker.isBlank requestedPort = true ->
  worker.parsePort requestedPort = worker.Valid parsedPort ->
  parsedPort = 25565.
Proof.
  destruct requestedPort as [[| c s] |]; cbn [worker.isBlank worker.parsePort];
    intros Hb Hp; try (now injection Hp).
  unfold parseInt10 in Hp. rewrite (blank_trimStart _ Hb) in Hp.
  discriminate.
Qed.

(** C1, as the code has it. When the port parameter is blank, the SRV
    lookup yields a target and the protocol version is one of 32 bits, the
    socket is opened to the target, and the handshake, which is the first
    thing written to it whatever the transport does and whenever the timer
    fires, carries the protocol version, the caller's hostname in its
    address field and the port of the SRV target in its port field; the
    port of the caller is the default 25565 on this path, and the port
    field differs from it whenever the port of the SRV target does. *)
Theorem handshake_after_srv
  (request : worker.Request) (hostname : JsString)
  (parsedPort : Z) (parsedProtocol : option Z)
  (doh : srv.SrvQuery -> HttpExchange) (random : Q)
  (reads : list (option Buffer)) (srvTarget : srv.ResolvedSrvTarget) :
  worker.q_hostname request = Some hostname ->
  hostname <> [] ->
  blen (utf8 hostname) < 2 ^ 31 ->
  worker.isBlank (worker.q_port request) = true ->
  worker.parsePort (worker.q_port request) = worker.Valid parsedPort ->
  worker.parseProtocol (worker.q_protocolVersion request)
  = worker.Valid parsedProtocol ->
  - 2 ^ 31
  <= minecraft.orDefault parsedProtocol minecraft.DEFAULT_PROTOCOL_VERSION
  < 2 ^ 31 ->
  srv.resolveMinecraftSrv hostname doh random = Some srvTarget ->
  exists handshake status opts,
    worker.fetch request doh random reads
    = worker.Pinged
        (worker.mkTarget (srv.hostname srvTarget) (srv.targetPort srvTarget)
                         true hostname)
        opts
        [minecraft.Connect (srv.hostname srvTarget) (srv.targetPort srvTarget);
         minecraft.Write handshake;
         minecraft.Write minecraft.buildStatusRequestPacket;
         minecraft.ReleaseWriter; minecraft.ReleaseReader; minecraft.Close]
        status
    /\ opts
       = minecraft.mkPingOptions (srv.hostname srvTarget)
           (srv.targetPort srvTarget) hostname parsedProtocol None
    /\ (forall t timer,
           exists rest,
             fst (race.getServerStatus opts t timer)
             = minecraft.Connect (srv.hostname srvTarget)
                 (srv.targetPort srvTarget)
                 :: minecraft.Write handshake :: rest)
    /\ minecraft.buildHandshakePacket hostname (srv.targetPort srvTarget)
         (minecraft.orDefault parsedProtocol minecraft.DEFAULT_PROTOCOL_VERSION)
       = Ok handshake
    /\ option_map f_protocolVersion (handshakeFields handshake)
       = Some (minecraft.orDefault parsedProtocol
                 minecraft.DEFAULT_PROTOCOL_VERSION)
    /\ option_map f_serverAddress (handshakeFields handshake)
       = Some (utf8 hostname)
    /\ option_map f_port (handshakeFields handshake)
       = Some (srv.targetPort srvTarget)
    /\ parsedPort = 25565
    /\ (srv.targetPort srvTarget <> parsedPort ->
        option_map f_port (handshakeFields handshake) <> Some parsedPort).
Proof.
  intros Hh Hne Hlen Hblank Hport Hproto Hversion Hsrv.
  pose proof (blank_port_default _ _ Hblank Hport) as Hdefault.
  destruct (resolveMinecraftSrv_some _ _ _ _ Hsrv)
    as (result & records & record & _ & Hrecords & Hin & ->).
  destruct (parsedRecords_valid _ _ _ Hrecords Hin) as (Hrange & _ & _).
  cbn [srv.hostname srv.targetPort] in *.
  destruct (handshakeFields_build hostname (srv.port record)
              (minecraft.orDefault parsedProtocol
                 minecraft.DEFAULT_PROTOCOL_VERSION)
              ltac:(lia) Hlen) as (handshake & Hbuild & Hfields).
  exists handshake.
  unfold worker.fetch. rewrite Hh, Hport, Hproto, Hblank, Hsrv.
  destruct hostname as [| c hostname']; [contradiction |].
  unfold minecraft.getServerStatus.
  cbn [minecraft.serverAddress minecraft.port minecraft.protocolVersion
       minecraft.hostname srv.hostname srv.targetPort].
  rewrite Hbuild. cbn [app].
  eexists. eexists. split; [reflexivity |].
  split; [reflexivity |].
  split.
  { intros t timer.
    apply (getServerStatus_handshake_first
             (minecraft.mkPingOptions (srv.target record) (srv.port record)
                (c :: hostname') parsedProtocol None) t timer handshake).
    exact Hbuild. }
  split; [reflexivity |].
  rewrite Hfields.
  cbn [option_map f_protocolVersion f_serverAddress f_port].
  rewrite (toInt32_toUint32 _ Hversion).
  split; [reflexivity |]. split; [reflexivity |]. split; [reflexivity |].
  split; [exact Hdefault |].
  intros Hdiff Heq. apply Hdiff. now injection Heq.
Qed.

Lemma handshake_after_srv_witness :
  worker.q_hostname exampleRequest = Some (lit "play.example.com")
  /\ worker.isBlank (worker.q_port exampleRequest) = true
  /\ srv.resolveMinecraftSrv (lit "play.example.com") exampleDoh (1 # 2)
     = Some exampleTarget
  /\ exists handshake status opts,
      worker.fetch exampleRequest exampleDoh (1 # 2) []
      = worker.Pinged
          (worker.mkTarget (lit "backend.example.com") 25566 true
                           (lit "play.example.com"))
          opts
          [minecraft.Connect (lit "backend.example.com") 25566;
           minecraft.Write handshake;
           minecraft.Write minecraft.buildStatusRequestPacket;
           minecraft.ReleaseWriter; minecraft.ReleaseReader; minecraft.Close]
          status
      /\ option_map f_serverAddress (handshakeFields handshake)
         = Some (utf8 (lit "play.example.com"))
      /\ option_map f_port (handshakeFields handshake) = Some 25566.
Proof.
  split; [reflexivity |]. split; [reflexivity |]. split; [reflexivity |].
  destruct (handshake_after_srv exampleRequest (lit "play.example.com")
              25565 None exampleDoh (1 # 2) [] exampleTarget)
    as (handshake & status & opts & Hfetch & _ & _ & _ & _ & Haddr & Hport
        & _);
    try reflexivity; try discriminate;
    [change (- 2 ^ 31 <= 765 < 2 ^ 31); lia |].
  exists handshake, status, opts. repeat split; assumption.
Defined.

(** C1, as the specification has it, fails for the port: in the
    specification's own end-to-end example the caller's port is the
    default 25565, the SRV target has port 25566, and the handshake
    written to the socket has 25566 in its port field; it is not the
    handshake built with the caller's port. *)
Lemma handshake_carries_srv_port :
  worker.parsePort (worker.q_port exampleRequest) = worker.Valid 25565
  /\ srv.resolveMinecraftSrv (lit "play.example.com") exampleDoh (1 # 2)
     = Some exampleTarget
  /\ exists handshake status opts,
      worker.fetch exampleRequest exampleDoh (1 # 2) []
      = worker.Pinged
          (worker.mkTarget (lit "backend.example.com") 25566 true
                           (lit "play.example.com"))
          opts
          [minecraft.Connect (lit "backend.example.com") 25566;
           minecraft.Write handshake;
           minecraft.Write minecraft.buildStatusRequestPacket;
           minecraft.ReleaseWriter; minecraft.ReleaseReader; minecraft.Close]
          status
      /\ option_map f_port (handshakeFields handshake) = Some 25566
      /\ option_map f_port (handshakeFields handshake) <> Some 25565
      /\ minecraft.buildHandshakePacket (lit "play.example.com") 25565 765
         <> Ok handshake.
Proof.
  split; [reflexivity |]. split; [reflexivity |].
  eexists. eexists. eexists. split; [reflexivity |].
  split; [reflexivity |]. split; discriminate.
Qed.


(** * Further properties of the code *)

(** ** Packets: building, reading, parsing *)

Lemma decodeInt32_at (before tail : Buffer) (v : Z) :
  leb.decodeInt32 (before ++ leb.encodeInt32 v ++ tail) (blen before)
  = Ok (leb.mkDecoded (leb.toInt32 (leb.toUint32 v))
                      (blen before + blen (leb.encodeInt32 v))).
Proof.
  unfold leb.decodeInt32, leb.encodeInt32, blen at 1.
  rewrite Nat2Z.id, skipn_app, skipn_all, Nat.sub_diag. cbn [skipn app].
  rewrite decodeLoop_encodeLoop;
    [| discriminate | apply toUint32_fuel | lia].
  now rewrite Z.shiftl_0_r, Z.lor_0_l.
Qed.

Lemma subarray_middle (before middle after : Buffer) :
  minecraft.subarray (before ++ middle ++ after) (blen before)
                     (blen before + blen middle)
  = middle.
Proof.
  unfold minecraft.subarray, minecraft.clampIndex.
  pose proof (blen_nonneg before). pose proof (blen_nonneg middle).
  pose proof (blen_nonneg after).
  rewrite !blen_app.
  destruct (blen before <? 0) eqn:E1; [apply Z.ltb_lt in E1; lia |].
  destruct (blen before + blen middle <? 0) eqn:E2;
    [apply Z.ltb_lt in E2; lia |].
  rewrite !Z.min_l by lia.
  replace (blen before + blen middle - blen before) with (blen middle) by lia.
  rewrite Z.max_l by lia. unfold blen. rewrite !Nat2Z.id.
  rewrite skipn_app, skipn_all, Nat.sub_diag. cbn [skipn app].
  rewrite firstn_app, Nat.sub_diag, firstn_all. cbn [firstn].
  apply app_nil_r.
Qed.

Lemma encodeVarInt_length (v : Z) : 1 <= blen (minecraft.encodeVarInt v) <= 5.
Proof.
  unfold minecraft.encodeVarInt, leb.encodeInt32, blen.
  rewrite encodeLoop_length by apply toUint32_range.
  unfold sizeOfVarInt.
  repeat match goal with
         | |- context [?a <? ?b] => destruct (a <? b)
         end; cbn; lia.
Qed.

(** The first two decodes of [parseStatusPacket], on a packet that begins
    with two VarInts. *)
Lemma parseStatusPacket_header (len id : Z) (rest : Buffer) :
  let packet :=
    minecraft.encodeVarInt len ++ minecraft.encodeVarInt id ++ rest in
  let next :=
    blen (minecraft.encodeVarInt len) + blen (minecraft.encodeVarInt id) in
  minecraft.parseStatusPacket packet
  = if negb (leb.toInt32 (leb.toUint32 id) =? minecraft.PACKET_STATUS_RESPONSE)
    then Err (Error "unexpected packet id")
    else
      jsonLength <- minecraft.liftDecode (leb.decodeInt32 packet next);;
      let start := leb.nextIndex jsonLength in
      let end_ := start + leb.value jsonLength in
      if end_ >? blen packet
      then Err (Error "status payload truncated")
      else Ok (minecraft.subarray packet start end_).
Proof.
  intros packet next. unfold minecraft.parseStatusPacket.
  assert (H1 : leb.decodeInt32 packet 0
               = Ok (leb.mkDecoded (leb.toInt32 (leb.toUint32 len))
                                   (blen (minecraft.encodeVarInt len)))).
  { exact (decodeInt32_at [] (minecraft.encodeVarInt id ++ rest) len). }
  rewrite H1. cbn [minecraft.liftDecode bind leb.nextIndex].
  assert (H2 : leb.decodeInt32 packet (blen (minecraft.encodeVarInt len))
               = Ok (leb.mkDecoded (leb.toInt32 (leb.toUint32 id)) next)).
  { exact (decodeInt32_at (minecraft.encodeVarInt len) rest id). }
  rewrite H2. cbn [minecraft.liftDecode bind leb.nextIndex leb.value].
  reflexivity.
Qed.

(** The parser does not look at the value of the leading length: a packet
    id 0 followed by a length-prefixed text yields the text. *)
Lemma parseStatusPacket_layout (len : Z) (json : Buffer) :
  blen json < 2 ^ 31 ->
  minecraft.parseStatusPacket
    (minecraft.encodeVarInt len
       ++ minecraft.encodeVarInt minecraft.PACKET_STATUS_RESPONSE
       ++ minecraft.encodeVarInt (blen json) ++ json)
  = Ok json.
Proof.
  intros Hlen.
  rewrite parseStatusPacket_header. cbv zeta.
  change (leb.toInt32 (leb.toUint32 minecraft.PACKET_STATUS_RESPONSE)
          =? minecraft.PACKET_STATUS_RESPONSE) with true.
  cbn [negb].
  set (e1 := minecraft.encodeVarInt len).
  set (e2 := minecraft.encodeVarInt minecraft.PACKET_STATUS_RESPONSE).
  set (e3 := minecraft.encodeVarInt (blen json)).
  assert (H3 : leb.decodeInt32 (e1 ++ e2 ++ e3 ++ json) (blen e1 + blen e2)
               = Ok (leb.mkDecoded (blen json)
                                   (blen e1 + blen e2 + blen e3))).
  { rewrite <- blen_app, (app_assoc e1 e2).
    pose proof (decodeInt32_at (e1 ++ e2) json (blen json)) as H.
    rewrite toInt32_toUint32 in H
      by (pose proof (blen_nonneg json); lia).
    exact H. }
  rewrite H3. cbn [minecraft.liftDecode bind leb.nextIndex leb.value].
  pose proof (blen_nonneg json).
  destruct (blen e1 + blen e2 + blen e3 + blen json
            >? blen (e1 ++ e2 ++ e3 ++ json)) eqn:E.
  - rewrite Z.gtb_ltb in E. apply Z.ltb_lt in E.
    rewrite !blen_app in E. lia.
  - f_equal.
    replace (e1 ++ e2 ++ e3 ++ json) with ((e1 ++ e2 ++ e3) ++ json ++ [])
      by (now rewrite app_nil_r, <- !app_assoc).
    replace (blen e1 + blen e2 + blen e3) with (blen (e1 ++ e2 ++ e3))
      by (rewrite !blen_app; lia).
    apply subarray_middle.
Qed.

(** X1. A status response that arrives whole is parsed to its JSON text:
    [parseStatusPacket] undoes the framing of [buildPacket] with packet id
    0 and a length-prefixed payload. *)
Theorem parseStatusPacket_statusResponse (json : Buffer) :
  blen json < 2 ^ 31 ->
  minecraft.parseStatusPacket (statusResponsePacket json) = Ok json.
Proof.
  intros Hlen. unfold statusResponsePacket, minecraft.buildPacket.
  cbv zeta. now apply parseStatusPacket_layout.
Qed.

Lemma parseStatusPacket_statusResponse_witness :
  blen [123; 125] < 2 ^ 31
  /\ minecraft.parseStatusPacket [4; 0; 2; 123; 125] = Ok [123; 125].
Proof.
  split; [reflexivity |].
  apply (parseStatusPacket_statusResponse [123; 125]). reflexivity.
Defined.

(** X2. A packet whose id is not 0 is rejected with the unexpected-id
    error, whatever its payload, before the payload is looked at. *)
Theorem parseStatusPacket_unexpected_id (packetId : Z) (payload : option Buffer) :
  - 2 ^ 31 <= packetId < 2 ^ 31 ->
  packetId <> 0 ->
  minecraft.parseStatusPacket (minecraft.buildPacket packetId payload)
  = Err (Error "unexpected packet id").
Proof.
  intros Hrange Hid. unfold minecraft.buildPacket. cbv zeta.
  assert (Hshape : exists rest,
             match payload with
             | Some p => minecraft.encodeVarInt packetId ++ p
             | None => minecraft.encodeVarInt packetId
             end = minecraft.encodeVarInt packetId ++ rest).
  { destruct payload as [p |]; [now exists p | exists []; now rewrite app_nil_r]. }
  destruct Hshape as [rest Hshape]. rewrite Hshape at 2.
  rewrite parseStatusPacket_header. cbv zeta.
  rewrite toInt32_toUint32 by assumption.
  unfold minecraft.PACKET_STATUS_RESPONSE.
  destruct (packetId =? 0) eqn:E; [apply Z.eqb_eq in E; contradiction |].
  reflexivity.
Qed.

Lemma parseStatusPacket_unexpected_id_witness :
  - 2 ^ 31 <= 1 < 2 ^ 31 /\ 1 <> 0
  /\ minecraft.parseStatusPacket [3; 1; 123; 125]
     = Err (Error "unexpected packet id").
Proof.
  split; [lia |]. split; [discriminate |].
  apply (parseStatusPacket_unexpected_id 1 (Some [123; 125])); [lia | discriminate].
Defined.

(** X3. A status response that declares more JSON bytes than the packet
    holds is rejected with the truncated-payload error. *)
Theorem parseStatusPacket_truncated (declared : Z) (json : Buffer) :
  blen json < declared < 2 ^ 31 ->
  minecraft.parseStatusPacket
    (minecraft.buildPacket minecraft.PACKET_STATUS_RESPONSE
       (Some (minecraft.encodeVarInt declared ++ json)))
  = Err (Error "status payload truncated").
Proof.
  intros Hlen. unfold minecraft.buildPacket.
  cbv zeta.
  rewrite parseStatusPacket_header. cbv zeta.
  change (leb.toInt32 (leb.toUint32 minecraft.PACKET_STATUS_RESPONSE)
          =? minecraft.PACKET_STATUS_RESPONSE) with true.
  cbn [negb].
  set (e1 := minecraft.encodeVarInt _).
  set (e2 := minecraft.encodeVarInt minecraft.PACKET_STATUS_RESPONSE).
  set (e3 := minecraft.encodeVarInt declared).
  pose proof (blen_nonneg json).
  assert (H3 : leb.decodeInt32 (e1 ++ e2 ++ e3 ++ json) (blen e1 + blen e2)
               = Ok (leb.mkDecoded declared (blen e1 + blen e2 + blen e3))).
  { rewrite <- blen_app, (app_assoc e1 e2).
    pose proof (decodeInt32_at (e1 ++ e2) json declared) as H'.
    rewrite toInt32_toUint32 in H' by lia. exact H'. }
  rewrite H3. cbn [minecraft.liftDecode bind leb.nextIndex leb.value].
  destruct (blen e1 + blen e2 + blen e3 + declared
            >? blen (e1 ++ e2 ++ e3 ++ json)) eqn:E; [reflexivity |].
  rewrite Z.gtb_ltb in E. apply Z.ltb_ge in E.
  rewrite !blen_app in E. lia.
Qed.

Lemma parseStatusPacket_truncated_witness :
  blen [123] < 2 < 2 ^ 31
  /\ minecraft.parseStatusPacket [3; 0; 2; 123]
     = Err (Error "status payload truncated").
Proof.
  split; [split; reflexivity |].
  apply (parseStatusPacket_truncated 2 [123]). split; reflexivity.
Defined.

Lemma buildPacket_framed (packetId : Z) (payload : option Buffer) :
  minecraft.buildPacket packetId payload
  = framePacket (packetBody packetId payload)
  /\ blen (packetBody packetId payload)
     < blen (minecraft.buildPacket packetId payload).
Proof.
  assert (Hframe : minecraft.buildPacket packetId payload
                   = framePacket (packetBody packetId payload))
    by (destruct payload; reflexivity).
  split; [exact Hframe |].
  rewrite Hframe. unfold framePacket. rewrite blen_app.
  pose proof (encodeVarInt_length (blen (packetBody packetId payload))).
  lia.
Qed.

(** X4. A packet made by [buildPacket] is read back unchanged by
    [readPacket], however its bytes are cut into reads, whatever reads
    without a value come in between, and whatever bytes follow it. *)
Theorem readPacket_buildPacket
  (packetId : Z) (payload : option Buffer)
  (reads : list (option Buffer)) (extra : Buffer) :
  blen (minecraft.buildPacket packetId payload) <= 2 ^ 31 ->
  received reads = minecraft.buildPacket packetId payload ++ extra ->
  minecraft.readPacket reads = Ok (minecraft.buildPacket packetId payload).
Proof.
  intros Hlen Hreads.
  destruct (buildPacket_framed packetId payload) as [Hframe Hbody].
  rewrite Hframe in *.
  apply readPacket_reassembles with (extra := extra); [lia | exact Hreads].
Qed.

Lemma readPacket_buildPacket_witness :
  blen (minecraft.buildPacket 0 (Some [2; 123; 125])) <= 2 ^ 31
  /\ received [Some [4; 0]; None; Some [2; 123]; Some [125; 9; 9]; Some [7]]
     = minecraft.buildPacket 0 (Some [2; 123; 125]) ++ [9; 9; 7]
  /\ minecraft.readPacket
       [Some [4; 0]; None; Some [2; 123]; Some [125; 9; 9]; Some [7]]
     = Ok (minecraft.buildPacket 0 (Some [2; 123; 125])).
Proof.
  split; [discriminate |]. split; [reflexivity |].
  apply (readPacket_buildPacket 0 (Some [2; 123; 125])
           [Some [4; 0]; None; Some [2; 123]; Some [125; 9; 9]; Some [7]]
           [9; 9; 7]); [discriminate | reflexivity].
Defined.

Lemma readPacketLoop_starved (body : Buffer) (reads : list (option Buffer)) :
  blen body < 2 ^ 31 ->
  forall (buffer : Buffer) (k : nat),
    buffer ++ received reads = firstn k (framePacket body) ->
    (k < List.length (framePacket body))%nat ->
    minecraft.readPacketLoop buffer reads
    = Err (Error minecraft.CONNECTION_CLOSED).
Proof.
  intros Hbody.
  induction reads as [| [chunk |] reads IH]; intros buffer k Heq Hk.
  - reflexivity.
  - cbn [received] in Heq. rewrite app_assoc in Heq.
    cbn [minecraft.readPacketLoop].
    assert (Hshort : buffer ++ chunk
                     = firstn (Nat.min (List.length (buffer ++ chunk)) k)
                              (framePacket body)).
    { rewrite <- firstn_firstn.
      apply prefix_of_app with (b := received reads) (e := []).
      - now rewrite app_nil_r.
      - rewrite <- Heq, !length_app. lia. }
    rewrite (readPacketStep_short body Hbody buffer chunk _ Hshort) by lia.
    apply IH with (k := k); assumption.
  - cbn [received] in Heq.
    cbn [minecraft.readPacketLoop minecraft.readPacketStep].
    apply IH with (k := k); assumption.
Qed.

(** X5. When the stream ends after only a strict prefix of a packet has
    arrived (nothing at all included), [readPacket] fails with the
    connection-closed error. *)
Theorem readPacket_connection_closed
  (body : Buffer) (reads : list (option Buffer)) (k : nat) :
  blen body < 2 ^ 31 ->
  (k < List.length (framePacket body))%nat ->
  received reads = firstn k (framePacket body) ->
  minecraft.readPacket reads = Err (Error minecraft.CONNECTION_CLOSED).
Proof.
  intros Hbody Hk Hreads. unfold minecraft.readPacket.
  apply readPacketLoop_starved with (body := body) (k := k); assumption.
Qed.

Lemma readPacket_connection_closed_witness :
  blen [0; 2; 123; 125] < 2 ^ 31
  /\ (3 < List.length (framePacket [0; 2; 123; 125]%Z))%nat
  /\ minecraft.readPacket [Some [4]; Some [0; 2]]
     = Err (Error minecraft.CONNECTION_CLOSED).
Proof.
  split; [reflexivity |]. split; [cbn; lia |].
  apply (readPacket_connection_closed [0; 2; 123; 125]
           [Some [4]; Some [0; 2]] 3);
    [reflexivity | cbn; lia | reflexivity].
Defined.

Lemma readPacketStep_cases (buffer chunk : Buffer) :
  minecraft.readPacketStep buffer (Some chunk)
  = minecraft.Continue (buffer ++ chunk)
  \/ exists n : nat,
      minecraft.readPacketStep buffer (Some chunk)
      = minecraft.Return (firstn n (buffer ++ chunk)).
Proof.
  destruct (leb.decodeInt32 (buffer ++ chunk) 0) as [d | e] eqn:E.
  - rewrite (readPacketStep_decoded _ _ _ E).
    destruct (blen (buffer ++ chunk) >=? leb.nextIndex d + leb.value d);
      [right | now left].
    unfold minecraft.subarray, minecraft.clampIndex.
    pose proof (blen_nonneg (buffer ++ chunk)).
    cbn [Z.ltb Z.compare]. rewrite (Z.min_l 0) by lia.
    change (Z.to_nat 0) with O. cbn [skipn]. eauto.
  - left. eapply readPacketStep_decode_error; eauto.
Qed.

Lemma readPacketLoop_prefix (reads : list (option Buffer)) :
  forall (buffer packet : Buffer),
    minecraft.readPacketLoop buffer reads = Ok packet ->
    exists rest, buffer ++ received reads = packet ++ rest.
Proof.
  induction reads as [| [chunk |] reads IH]; intros buffer packet H.
  - discriminate.
  - cbn [minecraft.readPacketLoop] in H. cbn [received]. rewrite app_assoc.
    destruct (readPacketStep_cases buffer chunk) as [Hc | [n Hr]].
    + rewrite Hc in H. now apply IH.
    + rewrite Hr in H. injection H as <-.
      exists (skipn n (buffer ++ chunk) ++ received reads).
      now rewrite app_assoc, firstn_skipn.
  - cbn [minecraft.readPacketLoop minecraft.readPacketStep] in H.
    cbn [received]. now apply IH.
Qed.

(** X6. Whatever the stream delivers, a packet returned by [readPacket] is
    a prefix of the bytes delivered: the reader never reorders, drops from
    the front or invents bytes. *)
Theorem readPacket_returns_prefix
  (reads : list (option Buffer)) (packet : Buffer) :
  minecraft.readPacket reads = Ok packet ->
  exists rest, received reads = packet ++ rest.
Proof.
  intros H. apply (readPacketLoop_prefix reads [] packet H).
Qed.

Lemma readPacket_returns_prefix_witness :
  minecraft.readPacket [Some [1; 7; 8]; Some [9]] = Ok [1; 7]
  /\ exists rest, received [Some [1; 7; 8]; Some [9]] = [1; 7] ++ rest.
Proof.
  split; [reflexivity |].
  apply (readPacket_returns_prefix [Some [1; 7; 8]; Some [9]] [1; 7]).
  reflexivity.
Defined.

(** ** The protocol client *)

Lemma buildHandshakePacket_range (serverAddress : JsString) (port version : Z) :
  (0 <= port <= 65535 ->
   exists handshake,
     minecraft.buildHandshakePacket serverAddress port version = Ok handshake)
  /\ (~ 0 <= port <= 65535 ->
      minecraft.buildHandshakePacket serverAddress port version
      = Err RangeError).
Proof.
  unfold minecraft.buildHandshakePacket, minecraft.writeUInt16BE.
  destruct ((0 <=? port) && (port <=? 65535)) eqn:E; cbn [bind].
  - apply andb_prop in E as [E1 E2].
    apply Z.leb_le in E1. apply Z.leb_le in E2.
    split; [eauto | intros H; lia].
  - apply andb_false_iff in E.
    split; [| reflexivity]. intros H.
    destruct E as [E | E]; apply Z.leb_gt in E; lia.
Qed.



(** ** More on the SRV selection *)

Lemma totalWeight_zero (candidates : list srv.ParsedSrvRecord) :
  Forall (fun record => srv.weight record = 0) candidates ->
  srv.totalWeightOf candidates = 0.
Proof.
  induction 1 as [| c rest Hc _ IH]; [reflexivity |].
  rewrite totalWeight_cons. lia.
Qed.

(** X9. When every record of the least priority has weight 0, the
    selection returns the first of them in the order of the list, whatever
    the random draw. *)
Theorem pickSrvRecord_all_zero_weights
  (records : list srv.ParsedSrvRecord) (random : Q) :
  records <> [] ->
  Forall (fun record => srv.weight record = 0) (srv.candidatesOf records) ->
  exists first rest,
    srv.candidatesOf records = first :: rest
    /\ srv.pickSrvRecord records random = Some first.
Proof.
  intros Hne Hzero.
  pose proof (candidates_nonempty records Hne) as Hc.
  pose proof (totalWeight_zero _ Hzero) as Htotal.
  unfold srv.pickSrvRecord.
  destruct records as [| r rs]; [contradiction |].
  rewrite Htotal. cbn [Z.leb Z.compare].
  destruct (srv.candidatesOf (r :: rs)) as [| first rest]; [contradiction |].
  exists first, rest. split; reflexivity.
Qed.

Lemma pickSrvRecord_all_zero_weights_witness :
  [srv.mkRecord 1 7 25565 (lit "z"); srv.mkRecord 0 0 25566 (lit "a");
   srv.mkRecord 0 0 25567 (lit "b")] <> []
  /\ srv.pickSrvRecord
       [srv.mkRecord 1 7 25565 (lit "z"); srv.mkRecord 0 0 25566 (lit "a");
        srv.mkRecord 0 0 25567 (lit "b")] (9 # 10)
     = Some (srv.mkRecord 0 0 25566 (lit "a")).
Proof.
  split; [discriminate |].
  destruct (pickSrvRecord_all_zero_weights
              [srv.mkRecord 1 7 25565 (lit "z");
               srv.mkRecord 0 0 25566 (lit "a");
               srv.mkRecord 0 0 25567 (lit "b")] (9 # 10))
    as (first & rest & Hc & Hpick).
  - discriminate.
  - repeat constructor.
  - injection Hc as <- _. exact Hpick.
Defined.

Lemma fold_min_same (priorities : list Z) (m : Z) :
  Forall (fun p => p = m) priorities -> fold_left Z.min priorities m = m.
Proof.
  induction 1 as [| p rest -> _ IH]; cbn [fold_left]; [reflexivity |].
  now rewrite Z.min_id.
Qed.

Lemma candidates_idempotent (records : list srv.ParsedSrvRecord) :
  srv.candidatesOf (srv.candidatesOf records) = srv.candidatesOf records.
Proof.
  destruct records as [| first others]; [reflexivity |].
  set (m := srv.minPriorityOf first others).
  assert (Hall : Forall (fun record => srv.priority record = m)
                        (srv.candidatesOf (first :: others))).
  { apply Forall_forall. intros record Hin.
    unfold srv.candidatesOf in Hin. apply filter_In in Hin as [_ Hp].
    now apply Z.eqb_eq in Hp. }
  destruct (srv.candidatesOf (first :: others)) as [| c cs] eqn:Ec;
    [reflexivity |].
  unfold srv.candidatesOf at 1.
  assert (Hmin : srv.minPriorityOf c cs = m).
  { unfold srv.minPriorityOf. inversion Hall as [| ? ? Hc Hcs]; subst.
    rewrite Hc. apply fold_min_same.
    apply Forall_forall. intros p Hp. apply in_map_iff in Hp as (r & <- & Hr).
    rewrite Forall_forall in Hcs. now apply Hcs. }
  rewrite Hmin.
  apply forallb_filter_id. apply forallb_forall. intros record Hin.
  apply Z.eqb_eq. rewrite Forall_forall in Hall. now apply Hall.
Qed.

(** X10. The selection looks only at the records of the least priority:
    records of a greater priority number change nothing, neither the
    record returned nor the draw at which it is returned. *)
Theorem pickSrvRecord_only_candidates
  (records : list srv.ParsedSrvRecord) (random : Q) :
  srv.pickSrvRecord records random
  = srv.pickSrvRecord (srv.candidatesOf records) random.
Proof.
  destruct records as [| first others]; [reflexivity |].
  pose proof (candidates_nonempty (first :: others) ltac:(discriminate)) as Hc.
  pose proof (candidates_idempotent (first :: others)) as Hid.
  unfold srv.pickSrvRecord at 2.
  destruct (srv.candidatesOf (first :: others)) as [| c cs] eqn:Ec;
    [contradiction |].
  rewrite Hid. unfold srv.pickSrvRecord. rewrite Ec. reflexivity.
Qed.

(** ** More on SRV parsing and resolution *)

Lemma splitWhiteSpace_tokens (s : JsString) :
  forall (cur : JsString) (inRun : bool) (token : JsString),
    (forall c, In c cur -> isWhiteSpace c = false) ->
    In token (splitWhiteSpace s cur inRun) ->
    forall c, In c token -> isWhiteSpace c = false.
Proof.
  induction s as [| x s IH]; intros cur inRun token Hcur Hin c Hc.
  - cbn [splitWhiteSpace] in Hin. destruct Hin as [<- | []].
    apply Hcur. now apply in_rev.
  - cbn [splitWhiteSpace] in Hin.
    destruct (isWhiteSpace x) eqn:Ex.
    + destruct inRun.
      * eapply IH; eauto.
      * destruct Hin as [<- | Hin].
        -- apply Hcur. now apply in_rev.
        -- eapply (IH [] true token); eauto. intros ? [].
    + eapply (IH (x :: cur) false token); eauto.
      intros y [<- | Hy]; [exact Ex | now apply Hcur].
Qed.

Lemma stripTrailingDot_incl (s : JsString) c :
  In c (srv.stripTrailingDot s) -> In c s.
Proof.
  unfold srv.stripTrailingDot.
  destruct (rev s) as [| x rest] eqn:E; [auto |].
  destruct (Z.eq_dec x 46) as [-> | Hx].
  - intros H. apply in_rev. rewrite E. right. now apply in_rev in H.
  - destruct x as [| p | p]; auto.
    do 6 (try destruct p as [p | p |]; auto). contradiction.
Qed.

(** The target of a parsed record is one of the white-space separated
    fields of the answer, less its trailing dot. *)
Lemma parseSrvRecord_target (answer : Json) (record : srv.ParsedSrvRecord) :
  srv.parseSrvRecord answer = Ok (Some record) ->
  forall c, In c (srv.target record) -> isWhiteSpace c = false.
Proof.
  intros H. unfold srv.parseSrvRecord in H.
  destruct (getProp answer "type") as [[type |] | e]; cbn [bind] in H;
    try discriminate.
  destruct type as [| b | n | s | items | fields]; try discriminate.
  destruct (negb (Qeq_bool n (inject_Z srv.SRV_RECORD_TYPE)));
    [discriminate |].
  destruct (getProp answer "data") as [[data |] | e]; cbn [bind] in H;
    try discriminate.
  destruct data as [| b | m | data | items | fields]; try discriminate.
  set (tokens := splitWhiteSpace (trim data) [] false) in H.
  destruct (srv.parseIntOpt (nth_error tokens 0)) as [priority |];
    [| discriminate].
  destruct (srv.parseIntOpt (nth_error tokens 1)) as [weight |];
    [| discriminate].
  destruct (srv.parseIntOpt (nth_error tokens 2)) as [port |];
    [| discriminate].
  destruct (nth_error tokens 3) as [raw |] eqn:Eraw; cbn [option_map] in H;
    [| discriminate].
  destruct (srv.stripTrailingDot raw) as [| c0 target] eqn:Estrip;
    [discriminate |].
  destruct ((port <? 1) || (port >? 65535)); [discriminate |].
  injection H as <-. cbn [srv.target]. intros c Hc.
  rewrite <- Estrip in Hc. apply stripTrailingDot_incl in Hc.
  apply nth_error_In in Eraw.
  apply (splitWhiteSpace_tokens (trim data) [] false raw); auto.
  intros ? [].
Qed.

(** X12. Every record that [parseSrvRecord] returns has a port from 1 to
    65535, a weight that is not negative, and a target that is not empty
    and holds no white space. *)
Theorem parseSrvRecord_valid (answer : Json) (record : srv.ParsedSrvRecord) :
  srv.parseSrvRecord answer = Ok (Some record) ->
  1 <= srv.port record <= 65535
  /\ 0 <= srv.weight record
  /\ srv.target record <> []
  /\ (forall c, In c (srv.target record) -> isWhiteSpace c = false).
Proof.
  intros H. destruct (parseSrvRecord_port answer record H) as (Hp & Ht & Hw).
  split; [exact Hp |]. split; [exact Hw |]. split; [exact Ht |].
  now apply parseSrvRecord_target with (answer := answer).
Qed.

Lemma parseSrvRecord_valid_witness :
  srv.parseSrvRecord
    (JObject [(lit "type", JNumber (inject_Z 33));
              (lit "data", JString (lit " 1  -4 25570 mc.example.org. "))])
  = Ok (Some (srv.mkRecord 1 0 25570 (lit "mc.example.org")))
  /\ 1 <= 25570 <= 65535.
Proof.
  split; [reflexivity |].
  apply (parseSrvRecord_valid
           (JObject [(lit "type", JNumber (inject_Z 33));
                     (lit "data", JString (lit " 1  -4 25570 mc.example.org. "))])
           (srv.mkRecord 1 0 25570 (lit "mc.example.org"))).
  reflexivity.
Defined.

(** X13. A target that [resolveMinecraftSrv] returns always has a port
    from 1 to 65535 and a hostname that is not empty and holds no white
    space, whatever the DNS endpoint sends. *)
Theorem resolveMinecraftSrv_valid_target
  (hostname : JsString) (doh : srv.SrvQuery -> HttpExchange) (random : Q)
  (target : srv.ResolvedSrvTarget) :
  srv.resolveMinecraftSrv hostname doh random = Some target ->
  1 <= srv.targetPort target <= 65535
  /\ srv.hostname target <> []
  /\ (forall c, In c (srv.hostname target) -> isWhiteSpace c = false).
Proof.
  intros H.
  destruct (resolveMinecraftSrv_some _ _ _ _ H)
    as (result & records & record & _ & Hrecords & Hin & ->).
  cbn [srv.targetPort srv.hostname].
  unfold srv.parsedRecords in Hrecords.
  destruct (getProp result "Answer") as [answer | e]; cbn [bind] in Hrecords;
    [| discriminate].
  set (answers := match answer with
                  | Some JNull | None => JArray []
                  | Some a => a
                  end) in Hrecords.
  destruct answers as [| b | n | s | items | fields]; try discriminate.
  destruct (srv.mapResult srv.parseSrvRecord items) as [parsed | e] eqn:Em;
    cbn [bind] in Hrecords; [| discriminate].
  injection Hrecords as <-.
  destruct (mapResult_members items parsed record Em Hin) as (a & _ & Hp).
  destruct (parseSrvRecord_port a record Hp) as (H1 & H3 & _).
  pose proof (parseSrvRecord_target a record Hp) as H4.
  auto.
Qed.

Lemma resolveMinecraftSrv_valid_target_witness :
  srv.resolveMinecraftSrv (lit "play.example.com") exampleDoh (1 # 2)
  = Some exampleTarget
  /\ 1 <= srv.targetPort exampleTarget <= 65535.
Proof.
  split; [reflexivity |].
  apply (resolveMinecraftSrv_valid_target (lit "play.example.com")
           exampleDoh (1 # 2) exampleTarget).
  reflexivity.
Defined.

Lemma endsWithDot_last (hostname : JsString) :
  srv.endsWithDot (hostname ++ [46]) = true.
Proof. unfold srv.endsWithDot. now rewrite rev_app_distr. Qed.

(** X14. A trailing dot on the hostname changes neither the DNS query nor
    the outcome of the resolution: the name asked for is
    [_minecraft._tcp.] followed by the hostname without that dot. *)
Theorem resolveMinecraftSrv_trailing_dot
  (hostname : JsString) (doh : srv.SrvQuery -> HttpExchange) (random : Q) :
  srv.endsWithDot hostname = false ->
  srv.name (srv.buildSrvQueryUrl hostname) = lit srv.SRV_PREFIX ++ hostname
  /\ srv.buildSrvQueryUrl (hostname ++ [46]) = srv.buildSrvQueryUrl hostname
  /\ srv.resolveMinecraftSrv (hostname ++ [46]) doh random
     = srv.resolveMinecraftSrv hostname doh random.
Proof.
  intros Hdot.
  assert (Hq : srv.buildSrvQueryUrl (hostname ++ [46])
               = srv.buildSrvQueryUrl hostname).
  { unfold srv.buildSrvQueryUrl.
    now rewrite endsWithDot_last, Hdot, removelast_last. }
  split; [unfold srv.buildSrvQueryUrl; now rewrite Hdot |].
  split; [exact Hq |].
  unfold srv.resolveMinecraftSrv, srv.resolveBody. now rewrite Hq.
Qed.

Lemma resolveMinecraftSrv_trailing_dot_witness :
  srv.endsWithDot (lit "play.example.com") = false
  /\ srv.resolveMinecraftSrv (lit "play.example.com" ++ [46]) exampleDoh (1 # 2)
     = srv.resolveMinecraftSrv (lit "play.example.com") exampleDoh (1 # 2).
Proof.
  split; [reflexivity |].
  apply (resolveMinecraftSrv_trailing_dot (lit "play.example.com")
           exampleDoh (1 # 2)).
  reflexivity.
Defined.

(** ** The query parameters *)

Lemma digit_cases (c : Z) :
  isDigit c = true ->
  c = 48 \/ c = 49 \/ c = 50 \/ c = 51 \/ c = 52 \/ c = 53 \/ c = 54
  \/ c = 55 \/ c = 56 \/ c = 57.
Proof.
  unfold isDigit. intros H. apply andb_prop in H as [H1 H2].
  apply Z.leb_le in H1. apply Z.leb_le in H2. lia.
Qed.

Lemma leadingDigits_app (digits rest : JsString) :
  forallb isDigit digits = true ->
  match rest with
  | [] => True
  | c :: _ => isDigit c = false
  end ->
  leadingDigits (digits ++ rest) = map (fun c => c - 48) digits.
Proof.
  intros Hd Hrest. induction digits as [| d digits IH].
  - cbn [app map]. destruct rest as [| c rest]; [reflexivity |].
    cbn [leadingDigits]. now rewrite Hrest.
  - cbn [forallb] in Hd. apply andb_prop in Hd as [Hd Hds].
    cbn [app leadingDigits map]. rewrite Hd. f_equal. now apply IH.
Qed.

Lemma decimalValue_fold (digits : JsString) :
  forall a,
    fold_left (fun acc x => 10 * acc + x) (map (fun c => c - 48) digits) a
    = fold_left (fun acc c => 10 * acc + (c - 48)) digits a.
Proof.
  induction digits as [| d digits IH]; intros a; [reflexivity |].
  cbn [map fold_left]. apply IH.
Qed.

Lemma parseInt10_digits (digits rest : JsString) :
  digits <> [] ->
  forallb isDigit digits = true ->
  match rest with
  | [] => True
  | c :: _ => isDigit c = false
  end ->
  parseInt10 (digits ++ rest) = Some (decimalValue digits).
Proof.
  intros Hne Hd Hrest.
  pose proof (leadingDigits_app digits rest Hd Hrest) as Hlead.
  destruct digits as [| d digits]; [contradiction |].
  cbn [forallb] in Hd. apply andb_prop in Hd as [Hd0 _].
  assert (Hvalue : fold_left (fun acc x => 10 * acc + x)
                             (map (fun c => c - 48) (d :: digits)) 0
                   = decimalValue (d :: digits)).
  { unfold decimalValue. apply decimalValue_fold. }
  unfold parseInt10. cbn [app] in *.
  destruct (digit_cases d Hd0)
    as [-> | [-> | [-> | [-> | [-> | [-> | [-> | [-> | [-> | ->]]]]]]]]];
    cbn [trimStart isWhiteSpace Z.leb Z.eqb Z.compare Pos.compare
         Pos.compare_cont Pos.eqb andb orb];
    cbv beta iota zeta; rewrite Hlead; cbn [map] in *;
    rewrite Hvalue; now rewrite Z.mul_1_l.
Qed.

(** X15. [parsePort] reads the leading decimal digits of the parameter and
    ignores what follows them: a parameter that begins with digits is
    accepted exactly when their value is from 1 to 65535, and the port is
    that value. *)
Theorem parsePort_leading_digits (digits rest : JsString) :
  digits <> [] ->
  forallb isDigit digits = true ->
  match rest with
  | [] => True
  | c :: _ => isDigit c = false
  end ->
  worker.parsePort (Some (digits ++ rest))
  = if (1 <=? decimalValue digits) && (decimalValue digits <=? 65535)
    then worker.Valid (decimalValue digits)
    else worker.Invalid PORT_MESSAGE.
Proof.
  intros Hne Hd Hrest.
  pose proof (parseInt10_digits digits rest Hne Hd Hrest) as Hparse.
  unfold worker.parsePort.
  destruct (digits ++ rest) as [| c s] eqn:E;
    [destruct digits; [contradiction | discriminate] |].
  rewrite Hparse.
  rewrite Z.gtb_ltb.
  destruct (Z.ltb_spec (decimalValue digits) 1);
    destruct (Z.ltb_spec 65535 (decimalValue digits));
    destruct (Z.leb_spec 1 (decimalValue digits));
    destruct (Z.leb_spec (decimalValue digits) 65535);
    cbn [orb andb]; try reflexivity; lia.
Qed.

Lemma parsePort_leading_digits_witness :
  worker.parsePort (Some (lit "25565abc")) = worker.Valid 25565
  /\ worker.parsePort (Some (lit "70000")) = worker.Invalid PORT_MESSAGE.
Proof.
  split.
  - apply (parsePort_leading_digits (lit "25565") (lit "abc"));
      [discriminate | reflexivity | reflexivity].
  - apply (parsePort_leading_digits (lit "70000") []);
      [discriminate | reflexivity | exact I].
Defined.

Lemma parsePort_range (value : option JsString) (parsed : Z) :
  worker.parsePort value = worker.Valid parsed -> 1 <= parsed <= 65535.
Proof.
  unfold worker.parsePort.
  destruct value as [[| c s] |]; try (intros H; injection H as <-; lia).
  destruct (parseInt10 (c :: s)) as [n |]; [| discriminate].
  destruct ((n <? 1) || (n >? 65535)) eqn:E; [discriminate |].
  intros H. injection H as <-.
  apply orb_false_elim in E as [E1 E2].
  apply Z.ltb_ge in E1. rewrite Z.gtb_ltb in E2. apply Z.ltb_ge in E2. lia.
Qed.

Lemma parseProtocol_positive (value : option JsString) (parsed : Z) :
  worker.parseProtocol value = worker.Valid (Some parsed) -> 0 < parsed.
Proof.
  unfold worker.parseProtocol.
  destruct value as [[| c s] |]; try discriminate.
  destruct (parseInt10 (c :: s)) as [n |]; [| discriminate].
  destruct (n <=? 0) eqn:E; [discriminate |].
  intros H. injection H as <-. apply Z.leb_gt in E. lia.
Qed.

(** ** The worker *)

Lemma resolved_target_ok hostname doh random target :
  srv.resolveMinecraftSrv hostname doh random = Some target ->
  1 <= srv.targetPort target <= 65535 /\ srv.hostname target <> [].
Proof.
  intros H.
  destruct (resolveMinecraftSrv_some _ _ _ _ H)
    as (result & records & record & _ & Hrecords & Hin & ->).
  destruct (parsedRecords_valid _ _ _ Hrecords Hin) as (Hp & Ht & _).
  cbn [srv.targetPort srv.hostname]. auto.
Qed.

(** X16. Whenever [fetch] runs a ping with a protocol version of 32
    bits, the request had a hostname that is not empty; that hostname is
    the server address of the handshake and of the target descriptor; the
    socket is opened to a host that is not empty, on a port from 1 to
    65535; a protocol version given by the caller is positive; the
    handshake is built, and on every transport and whenever the timer
    fires it is the first thing written after the socket is opened; and
    the target is marked as coming from SRV only if no port was given. *)
Theorem fetch_ping_invariants
  (request : worker.Request) (doh : srv.SrvQuery -> HttpExchange)
  (random : Q) (reads : list (option Buffer))
  (target : worker.Target) (opts : minecraft.PingOptions)
  (trace : list minecraft.SocketAction) (status : Result JsError Buffer) :
  worker.fetch request doh random reads
  = worker.Pinged target opts trace status ->
  - 2 ^ 31
  <= minecraft.orDefault (minecraft.protocolVersion opts)
       minecraft.DEFAULT_PROTOCOL_VERSION
  < 2 ^ 31 ->
  exists hostname handshake,
    worker.q_hostname request = Some hostname
    /\ hostname <> []
    /\ minecraft.serverAddress opts = hostname
    /\ worker.serverAddress target = hostname
    /\ minecraft.hostname opts = worker.hostname target
    /\ minecraft.port opts = worker.port target
    /\ minecraft.hostname opts <> []
    /\ 1 <= minecraft.port opts <= 65535
    /\ match minecraft.protocolVersion opts with
       | Some version => 0 < version
       | None => True
       end
    /\ minecraft.buildHandshakePacket hostname (minecraft.port opts)
         (minecraft.orDefault (minecraft.protocolVersion opts)
                              minecraft.DEFAULT_PROTOCOL_VERSION)
       = Ok handshake
    /\ (forall t timer,
           exists rest,
             fst (race.getServerStatus opts t timer)
             = minecraft.Connect (minecraft.hostname opts)
                 (minecraft.port opts)
                 :: minecraft.Write handshake :: rest)
    /\ (worker.viaSrv target = true ->
        worker.isBlank (worker.q_port request) = true).
Proof.
  unfold worker.fetch. intros H Hversion.
  destruct (worker.q_hostname request) as [[| c hostname'] |] eqn:Eh;
    try discriminate.
  set (hostname := c :: hostname') in *.
  destruct (worker.parsePort (worker.q_port request)) as [parsedPort | m]
    eqn:Eport; [| discriminate].
  destruct (worker.parseProtocol (worker.q_protocolVersion request))
    as [parsedProtocol | m] eqn:Eproto; [| discriminate].
  pose proof (parsePort_range _ _ Eport) as Hrange.
  set (srvTarget := if worker.isBlank (worker.q_port request)
                    then srv.resolveMinecraftSrv hostname doh random
                    else None) in H.
  set (targetHostname := match srvTarget with
                         | Some t => srv.hostname t
                         | None => hostname
                         end) in H.
  set (targetPort := match srvTarget with
                     | Some t => srv.targetPort t
                     | None => parsedPort
                     end) in H.
  assert (Hok : 1 <= targetPort <= 65535 /\ targetHostname <> []).
  { subst targetPort targetHostname.
    destruct srvTarget as [t |] eqn:Et.
    - subst srvTarget.
      destruct (worker.isBlank (worker.q_port request)); [| discriminate].
      eapply resolved_target_ok; eauto.
    - split; [exact Hrange | discriminate]. }
  destruct Hok as [Hport Hhost].
  unfold minecraft.getServerStatus in H.
  cbn [minecraft.serverAddress minecraft.port minecraft.protocolVersion
       minecraft.hostname] in H.
  destruct (proj1 (buildHandshakePacket_range hostname targetPort
                     (minecraft.orDefault parsedProtocol
                        minecraft.DEFAULT_PROTOCOL_VERSION))
              ltac:(lia)) as [handshake Hbuild].
  rewrite Hbuild in H. injection H as <- <- <- _.
  exists hostname, handshake.
  cbn [minecraft.serverAddress minecraft.port minecraft.protocolVersion
       minecraft.hostname worker.serverAddress worker.hostname worker.port
       worker.viaSrv].
  split; [reflexivity |]. split; [discriminate |].
  split; [reflexivity |]. split; [reflexivity |].
  split; [reflexivity |]. split; [reflexivity |].
  split; [exact Hhost |]. split; [exact Hport |].
  split.
  { destruct parsedProtocol as [v |]; [| exact I].
    eapply parseProtocol_positive; eauto. }
  split; [exact Hbuild |].
  split.
  { intros t timer.
    apply (getServerStatus_handshake_first
             (minecraft.mkPingOptions targetHostname targetPort hostname
                parsedProtocol None) t timer handshake).
    exact Hbuild. }
  subst srvTarget.
  destruct (worker.isBlank (worker.q_port request));
    [reflexivity | discriminate].
Qed.

Lemma fetch_ping_invariants_witness :
  exists target opts trace status,
    worker.fetch exampleRequest exampleDoh (1 # 2) []
    = worker.Pinged target opts trace status
    /\ 1 <= minecraft.port opts <= 65535
    /\ minecraft.serverAddress opts = lit "play.example.com".
Proof.
  destruct (worker.fetch exampleRequest exampleDoh (1 # 2) [])
    as [m | target opts trace status] eqn:E; [discriminate |].
  exists target, opts, trace, status. split; [reflexivity |].
  assert (Hversion : - 2 ^ 31
                     <= minecraft.orDefault (minecraft.protocolVersion opts)
                          minecraft.DEFAULT_PROTOCOL_VERSION
                     < 2 ^ 31).
  { vm_compute in E. injection E as _ <- _ _.
    change (- 2 ^ 31 <= 765 < 2 ^ 31). lia. }
  destruct (fetch_ping_invariants exampleRequest exampleDoh (1 # 2) []
              target opts trace status E Hversion)
    as (hostname & handshake & Hq & _ & Haddr & _ & _ & _ & _ & Hport & _).
  split; [exact Hport |].
  rewrite Haddr. cbn in Hq. now injection Hq as <-.
Defined.

(** X17. When the request names a port, the SRV lookup plays no part: the
    outcome is the same whatever the DNS endpoint and the random draw are,
    and the ping goes to the hostname and port of the request, not marked
    as coming from SRV. *)
Theorem fetch_explicit_port
  (request : worker.Request)
  (doh doh' : srv.SrvQuery -> HttpExchange) (random random' : Q)
  (reads : list (option Buffer)) :
  worker.isBlank (worker.q_port request) = false ->
  worker.fetch request doh random reads
  = worker.fetch request doh' random' reads
  /\ (forall target opts trace status,
         worker.fetch request doh random reads
         = worker.Pinged target opts trace status ->
         exists hostname parsedPort,
           worker.q_hostname request = Some hostname
           /\ worker.parsePort (worker.q_port request)
              = worker.Valid parsedPort
           /\ target = worker.mkTarget hostname parsedPort false hostname
           /\ minecraft.hostname opts = hostname
           /\ minecraft.port opts = parsedPort).
Proof.
  intros Hblank. unfold worker.fetch. rewrite Hblank.
  split; [reflexivity |].
  intros target opts trace status H.
  destruct (worker.q_hostname request) as [[| c hostname'] |];
    try discriminate.
  destruct (worker.parsePort (worker.q_port request)) as [parsedPort | m];
    [| discriminate].
  destruct (worker.parseProtocol (worker.q_protocolVersion request))
    as [parsedProtocol | m]; [| discriminate].
  destruct (minecraft.getServerStatus _ reads) as [tr st] eqn:Eg.
  injection H as <- <- _ _.
  exists (c :: hostname'), parsedPort. repeat split; reflexivity.
Qed.

Lemma fetch_explicit_port_witness :
  worker.isBlank (Some (lit "25570")) = false
  /\ worker.fetch
       (worker.mkRequest (Some (lit "play.example.com")) (Some (lit "25570"))
                         None)
       exampleDoh (1 # 2) []
     = worker.fetch
         (worker.mkRequest (Some (lit "play.example.com"))
                           (Some (lit "25570")) None)
         (fun _ => FetchRejected NetworkError) 0 [].
Proof.
  split; [reflexivity |].
  apply (fetch_explicit_port
           (worker.mkRequest (Some (lit "play.example.com"))
                             (Some (lit "25570")) None)
           exampleDoh (fun _ => FetchRejected NetworkError) (1 # 2) 0 []).
  reflexivity.
Defined.

(** X18. When no port is given, the SRV lookup yields no target and the
    protocol version is one of 32 bits, the ping falls back to the
    hostname of the request on the default port 25565: that is where the
    socket is opened, and what the handshake, the first thing written on
    every transport, carries in its address and port fields, next to the
    protocol version. *)
Theorem fetch_srv_fallback
  (request : worker.Request) (hostname : JsString)
  (parsedProtocol : option Z)
  (doh : srv.SrvQuery -> HttpExchange) (random : Q)
  (reads : list (option Buffer)) :
  worker.q_hostname request = Some hostname ->
  hostname <> [] ->
  blen (utf8 hostname) < 2 ^ 31 ->
  (worker.q_port request = None \/ worker.q_port request = Some []) ->
  worker.parseProtocol (worker.q_protocolVersion request)
  = worker.Valid parsedProtocol ->
  - 2 ^ 31
  <= minecraft.orDefault parsedProtocol minecraft.DEFAULT_PROTOCOL_VERSION
  < 2 ^ 31 ->
  srv.resolveMinecraftSrv hostname doh random = None ->
  exists handshake status opts,
    worker.fetch request doh random reads
    = worker.Pinged
        (worker.mkTarget hostname 25565 false hostname) opts
        [minecraft.Connect hostname 25565;
         minecraft.Write handshake;
         minecraft.Write minecraft.buildStatusRequestPacket;
         minecraft.ReleaseWriter; minecraft.ReleaseReader; minecraft.Close]
        status
    /\ (forall t timer,
           exists rest,
             fst (race.getServerStatus opts t timer)
             = minecraft.Connect hostname 25565
                 :: minecraft.Write handshake :: rest)
    /\ option_map f_protocolVersion (handshakeFields handshake)
       = Some (minecraft.orDefault parsedProtocol
                 minecraft.DEFAULT_PROTOCOL_VERSION)
    /\ option_map f_serverAddress (handshakeFields handshake)
       = Some (utf8 hostname)
    /\ option_map f_port (handshakeFields handshake) = Some 25565.
Proof.
  intros Hh Hne Hlen Hport Hproto Hversion Hsrv.
  destruct (handshakeFields_build hostname 25565
              (minecraft.orDefault parsedProtocol
                 minecraft.DEFAULT_PROTOCOL_VERSION)
              ltac:(lia) Hlen) as (handshake & Hbuild & Hfields).
  exists handshake.
  unfold worker.fetch. rewrite Hh, Hproto.
  destruct hostname as [| c hostname']; [contradiction |].
  assert (Hparse : worker.parsePort (worker.q_port request)
                   = worker.Valid 25565
                   /\ worker.isBlank (worker.q_port request) = true).
  { destruct Hport as [-> | ->]; split; reflexivity. }
  destruct Hparse as [-> ->]. rewrite Hsrv.
  unfold minecraft.getServerStatus.
  cbn [minecraft.serverAddress minecraft.port minecraft.protocolVersion
       minecraft.hostname].
  rewrite Hbuild. cbn [app].
  eexists. eexists. split; [reflexivity |].
  split.
  { intros t timer.
    apply (getServerStatus_handshake_first
             (minecraft.mkPingOptions (c :: hostname') 25565 (c :: hostname')
                parsedProtocol None) t timer handshake).
    exact Hbuild. }
  rewrite Hfields.
  cbn [option_map f_protocolVersion f_serverAddress f_port].
  rewrite (toInt32_toUint32 _ Hversion).
  repeat split; reflexivity.
Qed.

Lemma fetch_srv_fallback_witness :
  srv.resolveMinecraftSrv (lit "play.example.com")
    (fun _ => Responded false (Err SyntaxError)) (1 # 2) = None
  /\ exists handshake status opts,
      worker.fetch exampleRequest
        (fun _ => Responded false (Err SyntaxError)) (1 # 2) []
      = worker.Pinged
          (worker.mkTarget (lit "play.example.com") 25565 false
                           (lit "play.example.com")) opts
          [minecraft.Connect (lit "play.example.com") 25565;
           minecraft.Write handshake;
           minecraft.Write minecraft.buildStatusRequestPacket;
           minecraft.ReleaseWriter; minecraft.ReleaseReader; minecraft.Close]
          status.
Proof.
  split; [reflexivity |].
  destruct (fetch_srv_fallback exampleRequest (lit "play.example.com") None
              (fun _ => Responded false (Err SyntaxError)) (1 # 2) [])
    as (handshake & status & opts & Hfetch & _);
    try reflexivity; try discriminate;
    [left; reflexivity | change (- 2 ^ 31 <= 765 < 2 ^ 31); lia |].
  exists handshake, status, opts. exact Hfetch.
Defined.

(** X19. A port parameter that is not empty but holds only white space is
    rejected as a bad request, although it counts as blank for the SRV
    lookup: no lookup and no ping take place. *)
Theorem fetch_white_space_port
  (request : worker.Request) (hostname port : JsString)
  (doh : srv.SrvQuery -> HttpExchange) (random : Q)
  (reads : list (option Buffer)) :
  worker.q_hostname request = Some hostname ->
  hostname <> [] ->
  worker.q_port request = Some port ->
  port <> [] ->
  worker.isBlank (Some port) = true ->
  worker.fetch request doh random reads = worker.BadRequest PORT_MESSAGE.
Proof.
  intros Hh Hne Hp Hpne Hblank.
  unfold worker.fetch. rewrite Hh, Hp.
  destruct hostname as [| c hostname']; [contradiction |].
  destruct port as [| x port']; [contradiction |].
  cbn [worker.isBlank] in Hblank.
  unfold worker.parsePort, parseInt10.
  rewrite (blank_trimStart _ Hblank). reflexivity.
Qed.

Lemma fetch_white_space_port_witness :
  worker.isBlank (Some (lit "  ")) = true
  /\ worker.fetch
       (worker.mkRequest (Some (lit "play.example.com")) (Some (lit "  ")) None)
       exampleDoh (1 # 2) []
     = worker.BadRequest PORT_MESSAGE.
Proof.
  split; [reflexivity |].
  apply (fetch_white_space_port
           (worker.mkRequest (Some (lit "play.example.com")) (Some (lit "  "))
                             None)
           (lit "play.example.com") (lit "  ") exampleDoh (1 # 2) []);
    try reflexivity; discriminate.
Defined.

(** ** More on the outbound packets *)

(** X20. Reading a handshake packet back gives the fields it was built
    from: the protocol version, the UTF-8 of the server address, the port
    and the next state 1. *)
Theorem handshake_roundtrip (serverAddress : JsString) (port version : Z) :
  0 <= port <= 65535 ->
  - 2 ^ 31 <= version < 2 ^ 31 ->
  blen (utf8 serverAddress) < 2 ^ 31 ->
  exists packet,
    minecraft.buildHandshakePacket serverAddress port version = Ok packet
    /\ handshakeFields packet
       = Some (mkFields version (utf8 serverAddress) port
                        minecraft.NEXT_STATE_STATUS).
Proof.
  intros Hport Hversion Hlen.
  destruct (handshakeFields_build serverAddress port version Hport Hlen)
    as (packet & Hbuild & Hfields).
  exists packet. split; [exact Hbuild |].
  rewrite Hfields. now rewrite toInt32_toUint32.
Qed.

Lemma handshake_roundtrip_witness :
  0 <= 25565 <= 65535 /\ - 2 ^ 31 <= 765 < 2 ^ 31
  /\ exists packet,
      minecraft.buildHandshakePacket (lit "localhost") 25565 765 = Ok packet
      /\ handshakeFields packet
         = Some (mkFields 765 (utf8 (lit "localhost")) 25565 1).
Proof.
  split; [lia |]. split; [lia |].
  apply (handshake_roundtrip (lit "localhost") 25565 765);
    [lia | lia | reflexivity].
Defined.

(** X21. The length prefix of a packet made by [buildPacket] is the number
    of bytes that follow it, which are the packet id and then the
    payload. *)
Theorem buildPacket_length_prefix (packetId : Z) (payload : option Buffer) :
  blen (minecraft.buildPacket packetId payload) <= 2 ^ 31 ->
  takeVarInt (minecraft.buildPacket packetId payload)
  = Some (blen (packetBody packetId payload), packetBody packetId payload).
Proof.
  intros Hlen.
  destruct (buildPacket_framed packetId payload) as [Hframe Hbody].
  rewrite Hframe. unfold framePacket.
  rewrite takeVarInt_encodeVarInt, toInt32_toUint32; [reflexivity |].
  pose proof (blen_nonneg (packetBody packetId payload)). lia.
Qed.

Lemma buildPacket_length_prefix_witness :
  blen (minecraft.buildPacket 0 (Some [2; 123; 125])) <= 2 ^ 31
  /\ takeVarInt (minecraft.buildPacket 0 (Some [2; 123; 125]))
     = Some (4, [0; 2; 123; 125]).
Proof.
  split; [discriminate |].
  apply (buildPacket_length_prefix 0 (Some [2; 123; 125])). discriminate.
Defined.

Lemma utf8_ascii (s : JsString) : forallb isAscii s = true -> utf8 s = s.
Proof.
  induction s as [| c s IH]; [reflexivity |].
  cbn [forallb]. intros H. apply andb_prop in H as [Hc Hs].
  unfold isAscii in Hc. apply andb_prop in Hc as [H0 H1].
  apply Z.leb_le in H0. apply Z.leb_le in H1.
  cbn [utf8]. unfold isHighSurrogate, isLowSurrogate.
  destruct (Z.leb_spec 0xD800 c); [lia |].
  destruct (Z.leb_spec 0xDC00 c); [lia |].
  cbn [andb]. unfold utf8CodePoint.
  destruct (Z.ltb_spec c 0x80); [| lia].
  cbn [app]. f_equal. now apply IH.
Qed.

(** X22. For a string of ASCII characters, [encodeString] is the VarInt of
    the number of characters followed by the characters themselves, and
    reading the length prefix back gives that number and leaves the
    characters. *)
Theorem encodeString_ascii (value : JsString) (tail : Buffer) :
  forallb isAscii value = true ->
  blen value < 2 ^ 31 ->
  minecraft.encodeString value = minecraft.encodeVarInt (blen value) ++ value
  /\ takeVarInt (minecraft.encodeString value ++ tail)
     = Some (blen value, value ++ tail).
Proof.
  intros Hascii Hlen. unfold minecraft.encodeString. cbv zeta.
  rewrite (utf8_ascii value Hascii). split; [reflexivity |].
  rewrite <- app_assoc, takeVarInt_encodeVarInt, toInt32_toUint32;
    [reflexivity |].
  pose proof (blen_nonneg value). lia.
Qed.

Lemma encodeString_ascii_witness :
  forallb isAscii (lit "localhost") = true
  /\ minecraft.encodeString (lit "localhost") = 9 :: lit "localhost".
Proof.
  split; [reflexivity |].
  apply (encodeString_ascii (lit "localhost") []); reflexivity.
Defined.

(** ** Edge behaviour of the reader and of the resolver *)

Lemma encodeVarInt_negative_length (v : Z) :
  - 2 ^ 31 <= v < 0 -> blen (minecraft.encodeVarInt v) = 5.
Proof.
  intros Hv. unfold minecraft.encodeVarInt, leb.encodeInt32, blen.
  rewrite encodeLoop_length by apply toUint32_range.
  unfold sizeOfVarInt, leb.toUint32.
  replace (v mod 2 ^ 32) with (v + 2 ^ 32).
  - repeat match goal with
           | |- context [?a <? ?b] => destruct (Z.ltb_spec a b)
           end; try reflexivity; lia.
  - apply (Z.mod_unique v (2 ^ 32) (-1)); lia.
Qed.

(** X23. The reader does not check the sign of the length: when the length
    prefix is the VarInt of a negative number, [readPacket] returns at
    once, without waiting for more bytes and without an error, and what it
    returns is a strict prefix of the bytes received so far. *)
Theorem readPacket_negative_length
  (v : Z) (rest : Buffer) (reads : list (option Buffer)) :
  - 2 ^ 31 <= v < 0 ->
  exists n : nat,
    (n < List.length (minecraft.encodeVarInt v ++ rest))%nat
    /\ minecraft.readPacket (Some (minecraft.encodeVarInt v ++ rest) :: reads)
       = Ok (firstn n (minecraft.encodeVarInt v ++ rest)).
Proof.
  intros Hv.
  pose proof (encodeVarInt_negative_length v Hv) as Hfive.
  assert (Hlen : blen (minecraft.encodeVarInt v ++ rest) = 5 + blen rest)
    by (rewrite blen_app; lia).
  pose proof (blen_nonneg rest) as Hrest.
  assert (Hdec : leb.decodeInt32 ([] ++ minecraft.encodeVarInt v ++ rest) 0
                 = Ok (leb.mkDecoded v (blen (leb.encodeInt32 v)))).
  { apply decodeInt32_encodeInt32. lia. }
  assert (Hread : minecraft.readPacket
                    (Some (minecraft.encodeVarInt v ++ rest) :: reads)
                  = Ok (minecraft.subarray (minecraft.encodeVarInt v ++ rest)
                                           0 (5 + v))).
  { unfold minecraft.readPacket. cbn [minecraft.readPacketLoop].
    pose proof (readPacketStep_decoded [] _ _ Hdec) as Hstep.
    cbn [app] in Hstep.
    match goal with
    | |- context [minecraft.readPacketStep ?b ?c] =>
        change (minecraft.readPacketStep b c)
          with (minecraft.readPacketStep
                  [] (@Some Buffer (minecraft.encodeVarInt v ++ rest)))
    end.
    rewrite Hstep.
    cbn [leb.nextIndex leb.value app].
    change (blen (leb.encodeInt32 v)) with (blen (minecraft.encodeVarInt v)).
    rewrite Hfive.
    destruct (blen (minecraft.encodeVarInt v ++ rest) >=? 5 + v) eqn:E;
      [reflexivity |].
    rewrite Z.geb_leb in E. apply Z.leb_gt in E. lia. }
  rewrite Hread.
  unfold minecraft.subarray, minecraft.clampIndex.
  cbn [Z.ltb Z.compare]. rewrite (Z.min_l 0) by lia.
  change (Z.to_nat 0) with O. cbn [skipn].
  eexists. split; [| reflexivity].
  unfold blen in Hlen, Hrest.
  destruct (5 + v <? 0) eqn:En.
  - apply Z.ltb_lt in En. unfold blen. lia.
  - apply Z.ltb_ge in En. unfold blen. lia.
Qed.

Lemma readPacket_negative_length_witness :
  - 2 ^ 31 <= -1 < 0
  /\ minecraft.encodeVarInt (-1) ++ [0; 2] = [255; 255; 255; 255; 15; 0; 2]
  /\ exists n : nat,
      (n < List.length (minecraft.encodeVarInt (-1) ++ [0; 2]%Z))%nat
      /\ minecraft.readPacket [Some (minecraft.encodeVarInt (-1) ++ [0; 2])]
         = Ok (firstn n (minecraft.encodeVarInt (-1) ++ [0; 2])).
Proof.
  split; [lia |]. split; [reflexivity |].
  apply (readPacket_negative_length (-1) [0; 2] []). lia.
Defined.

Lemma mapResult_error {A B} (f : A -> Result JsError B) (items : list A) bad e :
  In bad items -> f bad = Err e ->
  exists e', srv.mapResult f items = Err e'.
Proof.
  induction items as [| a items IH]; intros Hin Hbad; [destruct Hin |].
  cbn [srv.mapResult].
  destruct (f a) as [b | ea] eqn:Ea; cbn [bind]; [| eauto].
  destruct Hin as [-> | Hin]; [congruence |].
  destruct (IH Hin Hbad) as [e' ->]. cbn [bind]. eauto.
Qed.

(** X24. One answer that makes [parseSrvRecord] throw (a [null] element,
    or an answer of type 33 whose [data] is missing or not a string) makes
    the whole resolution yield no target, whatever valid records the
    answer set also holds. *)
Theorem resolveMinecraftSrv_poisoned
  (hostname : JsString) (doh : srv.SrvQuery -> HttpExchange) (random : Q)
  (result bad : Json) (items : list Json) (e : JsError) :
  doh (srv.buildSrvQueryUrl hostname) = Responded true (Ok result) ->
  getProp result "Answer" = Ok (Some (JArray items)) ->
  In bad items ->
  srv.parseSrvRecord bad = Err e ->
  srv.resolveMinecraftSrv hostname doh random = None.
Proof.
  intros Hdoh Hanswer Hin Hbad.
  destruct (mapResult_error srv.parseSrvRecord items bad e Hin Hbad)
    as [e' Hmap].
  unfold srv.resolveMinecraftSrv, srv.resolveBody. rewrite Hdoh.
  cbn [negb bind]. unfold srv.parsedRecords. rewrite Hanswer.
  cbn [bind]. rewrite Hmap. reflexivity.
Qed.

Lemma resolveMinecraftSrv_poisoned_witness :
  srv.parseSrvRecord (JObject [(lit "type", JNumber (inject_Z 33))])
  = Err TypeError
  /\ srv.resolveMinecraftSrv (lit "play.example.com")
       (fun _ =>
          Responded true
            (Ok (JObject
                   [(lit "Answer",
                     JArray
                       [JObject
                          [(lit "type", JNumber (inject_Z 33));
                           (lit "data",
                            JString (lit "0 5 25566 backend.example.com."))];
                        JObject [(lit "type", JNumber (inject_Z 33))]])])))
       (1 # 2)
     = None.
Proof.
  split; [reflexivity |].
  apply (resolveMinecraftSrv_poisoned (lit "play.example.com") _ (1 # 2)
           (JObject
              [(lit "Answer",
                JArray
                  [JObject
                     [(lit "type", JNumber (inject_Z 33));
                      (lit "data",
                       JString (lit "0 5 25566 backend.example.com."))];
                   JObject [(lit "type", JNumber (inject_Z 33))]])])
           (JObject [(lit "type", JNumber (inject_Z 33))])
           [JObject
              [(lit "type", JNumber (inject_Z 33));
               (lit "data", JString (lit "0 5 25566 backend.example.com."))];
            JObject [(lit "type", JNumber (inject_Z 33))]]
           TypeError).
  - reflexivity.
  - reflexivity.
  - right. left. reflexivity.
  - reflexivity.
Defined.

Lemma mapResult_app {A B} (f : A -> Result JsError B) (front back : list A) :
  srv.mapResult f (front ++ back)
  = (xs <- srv.mapResult f front;;
     ys <- srv.mapResult f back;;
     Ok (xs ++ ys)).
Proof.
  induction front as [| a front IH]; cbn [app srv.mapResult bind].
  - destruct (srv.mapResult f back); reflexivity.
  - destruct (f a) as [b | e]; cbn [bind]; [| reflexivity].
    rewrite IH.
    destruct (srv.mapResult f front) as [xs | e]; cbn [bind]; [| reflexivity].
    destruct (srv.mapResult f back) as [ys | e]; reflexivity.
Qed.

Lemma nonNull_app {A} (xs ys : list (option A)) :
  srv.nonNull (xs ++ ys) = srv.nonNull xs ++ srv.nonNull ys.
Proof.
  induction xs as [| [x |] xs IH]; cbn [app srv.nonNull]; [reflexivity | |];
    now rewrite IH.
Qed.

(** X25. An answer for which [parseSrvRecord] returns [null] (another
    record type, numbers that do not parse, a port out of range, no
    target) is left out without a trace: wherever it stands in the answer
    set, the records parsed are those of the other answers, in their
    order. *)
Theorem parsedRecords_skips_invalid (front back : list Json) (skipped : Json) :
  srv.parseSrvRecord skipped = Ok None ->
  srv.parsedRecords
    (JObject [(lit "Answer", JArray (front ++ skipped :: back))])
  = srv.parsedRecords (JObject [(lit "Answer", JArray (front ++ back))]).
Proof.
  intros Hskip. unfold srv.parsedRecords.
  change (getProp (JObject [(lit "Answer", JArray (front ++ skipped :: back))])
                  "Answer")
    with (Ok (E := JsError) (Some (JArray (front ++ skipped :: back)))).
  change (getProp (JObject [(lit "Answer", JArray (front ++ back))]) "Answer")
    with (Ok (E := JsError) (Some (JArray (front ++ back)))).
  cbn [bind]. rewrite !mapResult_app.
  cbn [srv.mapResult]. rewrite Hskip. cbn [bind].
  destruct (srv.mapResult srv.parseSrvRecord front) as [xs | e];
    cbn [bind]; [| reflexivity].
  destruct (srv.mapResult srv.parseSrvRecord back) as [ys | e];
    cbn [bind]; [| reflexivity].
  now rewrite !nonNull_app.
Qed.

Lemma parsedRecords_skips_invalid_witness :
  srv.parseSrvRecord
    (JObject [(lit "type", JNumber (inject_Z 5));
              (lit "data", JString (lit "alias.example.com."))])
  = Ok None
  /\ srv.parsedRecords
       (JObject
          [(lit "Answer",
            JArray
              ([] ++ JObject [(lit "type", JNumber (inject_Z 5));
                              (lit "data", JString (lit "alias.example.com."))]
                  :: [JObject
                        [(lit "type", JNumber (inject_Z 33));
                         (lit "data",
                          JString (lit "0 5 25566 backend.example.com."))]]))])
     = Ok [srv.mkRecord 0 5 25566 (lit "backend.example.com")].
Proof.
  split; [reflexivity |].
  rewrite (parsedRecords_skips_invalid []
             [JObject
                [(lit "type", JNumber (inject_Z 33));
                 (lit "data", JString (lit "0 5 25566 backend.example.com."))]]
             (JObject [(lit "type", JNumber (inject_Z 5));
                       (lit "data", JString (lit "alias.example.com."))])
             eq_refl).
  reflexivity.
Defined.
